(** * A signalling relay for rooms of peers: model of [app/main.py]

    The server keeps one process-wide registry [rooms] from room identifiers
    to room objects.  Every connection runs [websocket_endpoint]: it joins a
    room, then loops over the messages of its socket and routes each one
    (relay to one member, broadcast to the room, or a command of the host)
    until the socket signals a disconnect, upon which [handle_disconnect]
    removes the member and elects a new host.

    The embedding is shallow.  Room objects live in a store and are named by
    references, because a handler keeps the object it looked up when it
    joined ([room = rooms[room_id]]) while [broadcast], [send_to_user] and
    [handle_disconnect] look the room up again in the registry.  Effects are
    threaded through a small monad: a store, an error channel for Python
    exceptions, and the list of frames written to sockets.

    Every handler runs from one suspension point on [receive_text] to the
    next without interleaving; the scheduling of the event loop between the
    sends of one handler is outside this model. *)

From stdpp Require Import gmap strings list fin_maps.
From Stdlib Require Import ZArith.

Local Open Scope string_scope.
Local Open Scope list_scope.
Set Warnings "-register-all".

(** ** JSON values and texts *)

(** What [json.loads] produces: [None] is [JNull], a [dict] is [JObj] with
    its items in insertion order and no key twice. *)
Inductive json : Type :=
  | JNull
  | JBool (b : bool)
  | JInt (n : Z)
  | JFloat (literal : string)
  | JStr (s : string)
  | JArr (items : list json)
  | JObj (items : list (string * json)).

(** A text frame is known through the [json] library only: either it is the
    encoding of a value, or [json.loads] rejects it. *)
Inductive text : Type :=
  | Garbage (raw : string)
  | Encoded (value : json).

(** Exceptions that the handlers can meet.  [Dangling] is not a Python
    exception: it stands for a reference that the store does not hold, which
    [sound] excludes. *)
Inductive exn : Type :=
  | JSONDecodeError
  | AttributeError
  | TypeError
  | KeyError
  | SendError
  | WebSocketDisconnect
  | Dangling.

Definition json_dumps (value : json) : text := Encoded value.

(** ** Insertion-ordered dictionaries with string keys *)

Module Dict.
(** A dictionary is the list of its items in insertion order. *)
Abbreviation t V := (list (string * V)) (only parsing).

Section Dict.
Context {V : Type}.

Definition keys (d : list (string * V)) : list string := d.*1.

Fixpoint get (k : string) (d : list (string * V)) : option V :=
  match d with
  | [] => None
  | (k', v) :: d' => if decide (k = k') then Some v else get k d'
  end.

(** [d[k] = v]: an existing key keeps its position, a new one is appended. *)
Fixpoint set (k : string) (v : V) (d : list (string * V))
    : list (string * V) :=
  match d with
  | [] => [(k, v)]
  | (k', v') :: d' =>
      if decide (k = k') then (k, v) :: d' else (k', v') :: set k v d'
  end.

(** The entries left by [del d[k]]. *)
Fixpoint remove (k : string) (d : list (string * V)) : list (string * V) :=
  match d with
  | [] => []
  | (k', v) :: d' => if decide (k = k') then d' else (k', v) :: remove k d'
  end.

(** [next(iter(d))] on a non-empty dictionary. *)
Definition first_key (d : list (string * V)) : option string :=
  head (keys d).

End Dict.
End Dict.

(** ** Rooms, the store and the registry *)

Definition ws : Type := nat.
Definition loc : Type := nat.

Record Room : Type := mkRoom {
  users : Dict.t ws;
  host : string;
  password : json;
  locked : bool
}.

Definition set_users (f : Dict.t ws -> Dict.t ws) (r : Room) : Room :=
  mkRoom (f (users r)) (host r) (password r) (locked r).
Definition set_host (h : string) (r : Room) : Room :=
  mkRoom (users r) h (password r) (locked r).
Definition set_password (p : json) (r : Room) : Room :=
  mkRoom (users r) (host r) p (locked r).
Definition set_locked (b : bool) (r : Room) : Room :=
  mkRoom (users r) (host r) (password r) b.

(** [heap] holds the room objects, [rooms] is the global registry, and
    [down] is the set of sockets on which a send raises (the peer is gone or
    the server has closed the socket). *)
Record world : Type := mkWorld {
  heap : gmap loc Room;
  rooms : gmap string loc;
  down : gset ws
}.

Inductive event : Type :=
  | Sent (to : ws) (frame : text)
  | Closed (sock : ws).

(** ** The effect monad *)

Definition M (A : Type) : Type := world -> (exn + A) * world * list event.

Definition ret {A} (a : A) : M A := fun w => (inr a, w, []).
Definition raise {A} (e : exn) : M A := fun w => (inl e, w, []).

Definition bind {A B} (m : M A) (f : A -> M B) : M B := fun w =>
  match m w with
  | (inr a, w1, o1) =>
      match f a w1 with
      | (r, w2, o2) => (r, w2, o1 ++ o2)
      end
  | (inl e, w1, o1) => (inl e, w1, o1)
  end.

(** [try: m except e: h e]. *)
Definition try_except {A} (m : M A) (h : exn -> M A) : M A := fun w =>
  match m w with
  | (inl e, w1, o1) =>
      match h e w1 with
      | (r, w2, o2) => (r, w2, o1 ++ o2)
      end
  | done => done
  end.

Declare Scope py_scope.
Delimit Scope py_scope with py.
Notation "x <- m ;; k" := (bind m (fun x => k))
  (at level 100, m at next level, right associativity) : py_scope.
Notation "m ;; k" := (bind m (fun _ => k))
  (at level 100, right associativity) : py_scope.
Local Open Scope py_scope.

Definition get_world : M world := fun w => (inr w, w, []).
Definition put_world (w' : world) : M unit := fun _ => (inr tt, w', []).
Definition emit (e : event) : M unit := fun w => (inr tt, w, [e]).

(** Reading and updating a room object through its reference. *)
Definition deref (l : loc) : M Room :=
  w <- get_world ;;
  match heap w !! l with
  | Some r => ret r
  | None => raise Dangling
  end.

Definition update (l : loc) (f : Room -> Room) : M unit :=
  r <- deref l ;;
  w <- get_world ;;
  put_world (mkWorld (<[l := f r]> (heap w)) (rooms w) (down w)).

(** [rooms.get(room_id)] *)
Definition rooms_get (room_id : string) : M (option loc) :=
  w <- get_world ;; ret (rooms w !! room_id).

(** ** Sockets *)

Definition send_text (s : ws) (frame : text) : M unit :=
  w <- get_world ;;
  if decide (s ∈ down w) then raise SendError else emit (Sent s frame).

Definition close (s : ws) : M unit :=
  w <- get_world ;;
  if decide (s ∈ down w) then raise SendError
  else (put_world (mkWorld (heap w) (rooms w) ({[s]} ∪ down w)) ;;
        emit (Closed s)).

(** ** Python primitives on decoded values *)

Definition json_loads (frame : text) : M json :=
  match frame with
  | Garbage _ => raise JSONDecodeError
  | Encoded v => ret v
  end.

Fixpoint assoc (k : string) (items : list (string * json)) : option json :=
  match items with
  | [] => None
  | (k', v) :: rest => if decide (k = k') then Some v else assoc k rest
  end.

(** [data.get(key, fallback)]: only a [dict] has the method. *)
Definition py_get (data : json) (key : string) (fallback : json) : M json :=
  match data with
  | JObj items => ret (default fallback (assoc key items))
  | _ => raise AttributeError
  end.

Definition is_str (v : json) (s : string) : bool :=
  match v with
  | JStr s' => bool_decide (s' = s)
  | _ => false
  end.

(** [key in d] where [key] is a decoded value: a [list] or a [dict] is
    unhashable, anything that is not a string equals no key. *)
Definition py_in (key : json) (d : Dict.t ws) : M bool :=
  match key with
  | JStr s => ret (match Dict.get s d with Some _ => true | None => false end)
  | JArr _ | JObj _ => raise TypeError
  | _ => ret false
  end.

(** [d[key]] *)
Definition py_item (key : json) (d : Dict.t ws) : M ws :=
  match key with
  | JStr s =>
      match Dict.get s d with
      | Some v => ret v
      | None => raise KeyError
      end
  | JArr _ | JObj _ => raise TypeError
  | _ => raise KeyError
  end.

(** [del room["users"][key]] on the room object at [l]. *)
Definition del_user (l : loc) (key : json) : M unit :=
  r <- deref l ;;
  match key with
  | JStr s =>
      match Dict.get s (users r) with
      | Some _ => update l (set_users (Dict.remove s))
      | None => raise KeyError
      end
  | JArr _ | JObj _ => raise TypeError
  | _ => raise KeyError
  end.

(** [rooms[room_id]], [rooms[room_id] = l] and [del rooms[room_id]]. *)
Definition rooms_item (room_id : string) : M loc :=
  o <- rooms_get room_id ;;
  match o with
  | Some l => ret l
  | None => raise KeyError
  end.

Definition rooms_set (room_id : string) (l : loc) : M unit :=
  w <- get_world ;;
  put_world (mkWorld (heap w) (<[room_id := l]> (rooms w)) (down w)).

Definition rooms_del (room_id : string) : M unit :=
  w <- get_world ;;
  match rooms w !! room_id with
  | Some _ => put_world (mkWorld (heap w) (delete room_id (rooms w)) (down w))
  | None => raise KeyError
  end.

(** A new room object gets a reference that the store does not use yet. *)
Definition alloc (r : Room) : M loc :=
  w <- get_world ;;
  let l := fresh (dom (heap w)) in
  put_world (mkWorld (<[l := r]> (heap w)) (rooms w) (down w)) ;;
  ret l.

(** ** The functions of [main.py] *)

(** The [message] argument of [broadcast]: a [str] goes out as it is,
    anything else through [json.dumps]. *)
Inductive message : Type :=
  | Str (frame : text)
  | Obj (value : json).

(** The first loop of [broadcast]: one send per member in dictionary order,
    the excluded member skipped, the members whose send raised collected. *)
Fixpoint broadcast_loop (frame : text) (exclude : option string)
    (items : list (string * ws)) (to_remove : list string) : M (list string) :=
  match items with
  | [] => ret to_remove
  | (uid, s) :: rest =>
      if decide (Some uid = exclude) then
        broadcast_loop frame exclude rest to_remove
      else
        to_remove' <- try_except (send_text s frame ;; ret to_remove)
                                 (fun _ => ret (to_remove ++ [uid])) ;;
        broadcast_loop frame exclude rest to_remove'
  end.

(** The second loop of [broadcast]. *)
Fixpoint remove_all (l : loc) (to_remove : list string) : M unit :=
  match to_remove with
  | [] => ret tt
  | uid :: rest => del_user l (JStr uid) ;; remove_all l rest
  end.

Definition broadcast (room_id : string) (msg : message)
    (exclude : option string) : M unit :=
  room <- rooms_get room_id ;;
  match room with
  | None => ret tt
  | Some room =>
      let frame := match msg with
                   | Str t => t
                   | Obj v => json_dumps v
                   end in
      r <- deref room ;;
      to_remove <- broadcast_loop frame exclude (users r) [] ;;
      remove_all room to_remove
  end.

Definition send_to_user (room_id : string) (user_id : json) (frame : text)
    : M unit :=
  room <- rooms_get room_id ;;
  match room with
  | None => ret tt
  | Some room =>
      r <- deref room ;;
      present <- py_in user_id (users r) ;;
      if present : bool then
        try_except (s <- py_item user_id (users r) ;; send_text s frame)
                   (fun _ => del_user room user_id)
      else ret tt
  end.

Definition notify_users (room_id : string) (msg : json) : M unit :=
  broadcast room_id (Obj msg) None.

Definition user_left (user_id host_id : string) : json :=
  JObj [("type", JStr "user-left"); ("userId", JStr user_id);
        ("host", JStr host_id)].

Definition handle_disconnect (room_id user_id : string) : M unit :=
  room <- rooms_get room_id ;;
  match room with
  | None => ret tt
  | Some room =>
      r <- deref room ;;
      present <- py_in (JStr user_id) (users r) ;;
      if present : bool then
        del_user room (JStr user_id) ;;
        r <- deref room ;;
        returned <-
          (if decide (user_id = host r) then
             match Dict.first_key (users r) with
             | Some first => update room (set_host first) ;; ret false
             | None => rooms_del room_id ;; ret true
             end
           else ret false) ;;
        if returned : bool then ret tt
        else
          r <- deref room ;;
          notify_users room_id (user_left user_id (host r))
      else ret tt
  end.

(** *** [websocket_endpoint] *)

(** The local variables of a handler that has entered its loop. *)
Record conn : Type := mkConn {
  websocket : ws;
  room_id : string;
  user_id : string;
  room : loc
}.

Definition new_room (user_id : string) : Room :=
  mkRoom [] user_id (JStr "") false.

Definition error_locked : json :=
  JObj [("type", JStr "error"); ("message", JStr "Room is locked")].

Definition user_joined (user_id : string) (ids : list string)
    (host_id : string) : json :=
  JObj [("type", JStr "user-joined"); ("userId", JStr user_id);
        ("users", JArr (JStr <$> ids)); ("host", JStr host_id)].

(** From [accept] to the entry of the loop: [None] when the function has
    returned after rejecting the join. *)
Definition endpoint_join (websocket : ws) (room_id user_id : string)
    : M (option conn) :=
  known <- rooms_get room_id ;;
  match known with
  | Some _ => ret tt
  | None => l <- alloc (new_room user_id) ;; rooms_set room_id l
  end ;;
  room <- rooms_item room_id ;;
  r <- deref room ;;
  if locked r && bool_decide (user_id ≠ host r) then
    send_text websocket (json_dumps error_locked) ;;
    close websocket ;;
    ret None
  else
    update room (set_users (Dict.set user_id websocket)) ;;
    r <- deref room ;;
    notify_users room_id
      (user_joined user_id (Dict.keys (users r)) (host r)) ;;
    ret (Some (mkConn websocket room_id user_id room)).

(** The [user-left] event of the kick branch. *)
Definition kick_user_left (kick_id : json) : list (string * json) :=
  [("type", JStr "user-left"); ("userId", kick_id)].

Definition relayed : list string := ["offer"; "answer"; "ice-candidate"].

(** The body of the loop after [receive_text] has returned [msg]. *)
Definition dispatch (c : conn) (msg : text) : M unit :=
  data <- json_loads msg ;;
  msg_type <- py_get data "type" JNull ;;
  target <- py_get data "target" JNull ;;
  if existsb (is_str msg_type) relayed then
    send_to_user (room_id c) target msg
  else if is_str msg_type "chat" then
    text_of_chat <- py_get data "message" JNull ;;
    broadcast (room_id c)
      (Obj (JObj [("type", JStr "chat"); ("userId", JStr (user_id c));
                  ("message", text_of_chat)])) None
  else if is_str msg_type "raise-hand" then
    broadcast (room_id c)
      (Obj (JObj [("type", JStr "raise-hand"); ("userId", JStr (user_id c))]))
      None
  else if is_str msg_type "set-password" then
    r <- deref (room c) ;;
    if decide (user_id c = host r) then
      pw <- py_get data "password" (JStr "") ;;
      update (room c) (set_password pw) ;;
      update (room c) (set_locked true) ;;
      broadcast (room_id c)
        (Obj (JObj [("type", JStr "room-locked"); ("locked", JBool true)]))
        None
    else ret tt
  else if is_str msg_type "unlock-room" then
    r <- deref (room c) ;;
    if decide (user_id c = host r) then
      update (room c) (set_locked false) ;;
      broadcast (room_id c)
        (Obj (JObj [("type", JStr "room-locked"); ("locked", JBool false)]))
        None
    else ret tt
  else if is_str msg_type "kick" then
    r <- deref (room c) ;;
    if decide (user_id c = host r) then
      kick_id <- py_get data "kickId" JNull ;;
      r <- deref (room c) ;;
      present <- py_in kick_id (users r) ;;
      if present : bool then
        send_to_user (room_id c) kick_id
          (json_dumps (JObj [("type", JStr "kicked")])) ;;
        r <- deref (room c) ;;
        s <- py_item kick_id (users r) ;;
        close s ;;
        del_user (room c) kick_id ;;
        notify_users (room_id c)
          (JObj (kick_user_left kick_id))
      else ret tt
    else ret tt
  else
    broadcast (room_id c) (Obj data) (Some (user_id c)).

(** What [receive_text] does at the top of the loop: it returns the next
    text frame or raises [WebSocketDisconnect]. *)
Inductive inbound : Type :=
  | Frame (msg : text)
  | Hangup.

Definition receive_text (i : inbound) : M text :=
  match i with
  | Frame msg => ret msg
  | Hangup => raise WebSocketDisconnect
  end.

(** One turn of [while True] inside [try ... except WebSocketDisconnect]:
    [Continue] goes back to [receive_text], [Return] ends the handler after
    the cleanup, and an exception left in the result has escaped the
    handler. *)
Inductive control : Type :=
  | Continue
  | Return.

Definition endpoint_turn (c : conn) (i : inbound) : M control :=
  try_except
    (msg <- receive_text i ;; dispatch c msg ;; ret Continue)
    (fun e =>
       match e with
       | WebSocketDisconnect =>
           handle_disconnect (room_id c) (user_id c) ;; ret Return
       | _ => raise e
       end).

(** ** The server as a transition system *)

(** The handlers that are inside their loop, by socket. *)
Record server : Type := mkServer {
  state : world;
  handlers : gmap ws conn
}.

Inductive action : Type :=
  | Connect (s : ws) (room_id user_id : string)
  | Receive (s : ws) (msg : text)
  | Disconnect (s : ws)
  | Break (s : ws).

Definition lose (s : ws) (w : world) : world :=
  mkWorld (heap w) (rooms w) ({[s]} ∪ down w).

(** A handler that ends, by returning or by an escaped exception, leaves
    [handlers]; the framework then closes its socket. *)
Definition step (sv : server) (a : action) : server * list event :=
  match a with
  | Connect s rid uid =>
      match endpoint_join s rid uid (state sv) with
      | (inr (Some c), w, out) => (mkServer w (<[s := c]> (handlers sv)), out)
      | (_, w, out) => (mkServer (lose s w) (handlers sv), out)
      end
  | Receive s msg =>
      match handlers sv !! s with
      | None => (sv, [])
      | Some c =>
          match endpoint_turn c (Frame msg) (state sv) with
          | (inr Continue, w, out) => (mkServer w (handlers sv), out)
          | (_, w, out) => (mkServer (lose s w) (delete s (handlers sv)), out)
          end
      end
  | Disconnect s =>
      match handlers sv !! s with
      | None => (mkServer (lose s (state sv)) (handlers sv), [])
      | Some c =>
          match endpoint_turn c Hangup (lose s (state sv)) with
          | (_, w, out) => (mkServer w (delete s (handlers sv)), out)
          end
      end
  | Break s => (mkServer (lose s (state sv)) (handlers sv), [])
  end.

Fixpoint run (sv : server) (actions : list action) : server * list event :=
  match actions with
  | [] => (sv, [])
  | a :: rest =>
      let '(sv1, out1) := step sv a in
      let '(sv2, out2) := run sv1 rest in
      (sv2, out1 ++ out2)
  end.

Definition boot : server := mkServer (mkWorld ∅ ∅ ∅) ∅.

(** The room that the registry holds under [room_id]. *)
Definition registered (w : world) (room_id : string) : option Room :=
  l ← rooms w !! room_id; heap w !! l.

Definition frame_of (o : list (string * json)) : text := Encoded (JObj o).

(** ** Who a broadcast reaches *)

(** A member is addressed unless it is the excluded one; an addressed member
    is reached when its socket takes the frame and lost when the send
    raises. *)
Definition reached (exclude : option string) (w : world)
    (p : string * ws) : Prop :=
  Some p.1 ≠ exclude ∧ p.2 ∉ down w.

Definition lost (exclude : option string) (w : world)
    (p : string * ws) : Prop :=
  Some p.1 ≠ exclude ∧ p.2 ∈ down w.

#[global] Instance reached_dec exclude w p : Decision (reached exclude w p).
Proof. unfold reached. apply _. Defined.

#[global] Instance lost_dec exclude w p : Decision (lost exclude w p).
Proof. unfold lost. apply _. Defined.

(** The store after the object at [l] has been replaced by [r]. *)
Definition with_room (l : loc) (r : Room) (w : world) : world :=
  mkWorld (<[l := r]> (heap w)) (rooms w) (down w).

(** The frames a broadcast writes, and the members it keeps. *)
Definition deliveries (frame : text) (exclude : option string) (w : world)
    (d : Dict.t ws) : list event :=
  (λ p, Sent p.2 frame) <$> filter (reached exclude w) d.

Definition survivors (exclude : option string) (w : world)
    (d : Dict.t ws) : Dict.t ws :=
  filter (λ p, ¬ lost exclude w p) d.

Definition frame_for (msg : message) : text :=
  match msg with
  | Str t => t
  | Obj v => json_dumps v
  end.

(** The members whose socket takes a frame. *)
Definition alive (w : world) (d : Dict.t ws) : Dict.t ws :=
  filter (λ p, p.2 ∉ down w) d.

Definition room_locked (b : bool) : text :=
  json_dumps (JObj [("type", JStr "room-locked"); ("locked", JBool b)]).


(** The field that [dispatch] reads for a message of a given type. *)
Definition required (msg_type : string) : option string :=
  if bool_decide (msg_type ∈ relayed) then Some "target"
  else if bool_decide (msg_type = "chat") then Some "message"
  else if bool_decide (msg_type = "set-password") then Some "password"
  else if bool_decide (msg_type = "kick") then Some "kickId"
  else None.

(** An object without a type, or without the field its type calls for. *)
Definition lacks_required (items : list (string * json)) : Prop :=
  match assoc "type" items with
  | None => True
  | Some (JStr t) =>
      match required t with
      | Some k => assoc k items = None
      | None => False
      end
  | Some _ => False
  end.

(** The registry names objects of the store, and no dictionary of members
    holds a key twice. *)
Definition sound (w : world) : Prop :=
  map_Forall (λ _ l, is_Some (heap w !! l)) (rooms w)
  ∧ map_Forall (λ _ r, NoDup (Dict.keys (users r))) (heap w).

(** A computation that keeps the store sound and forgets no object. *)
Definition safe {A} (m : M A) : Prop :=
  ∀ w res w' out,
    sound w → m w = (res, w', out) →
    sound w' ∧ dom (heap w) ⊆ dom (heap w').

(** Every handler in its loop holds a room object of the store. *)
Definition attached (sv : server) : Prop :=
  map_Forall (λ _ c, is_Some (heap (state sv) !! room c)) (handlers sv).

(** The two invariants of the data model, on one room. *)
Definition host_is_member (r : Room) : Prop :=
  users r ≠ [] → host r ∈ Dict.keys (users r).

Definition has_member (r : Room) : Prop := users r ≠ [].

(** *** Vocabulary for the rest of the code *)

(** What [key in d] makes of a decoded value: a [list] or a [dict] cannot be
    hashed, and only a string can name a member. *)
Definition hashable (key : json) : bool :=
  match key with
  | JArr _ | JObj _ => false
  | _ => true
  end.

Definition named (key : json) (d : Dict.t ws) : option ws :=
  match key with
  | JStr s => Dict.get s d
  | _ => None
  end.

(** The events that [dispatch] builds for [chat] and [raise-hand]. *)
Definition chat_event (user_id : string) (body : json) : json :=
  JObj [("type", JStr "chat"); ("userId", JStr user_id); ("message", body)].

Definition raise_hand_event (user_id : string) : json :=
  JObj [("type", JStr "raise-hand"); ("userId", JStr user_id)].

Definition kicked : text := json_dumps (JObj [("type", JStr "kicked")]).

(** The types that [dispatch] has a branch for; every other value of
    [type], a missing one included, takes the fallback. *)
Definition known_types : list string :=
  relayed ++ ["chat"; "raise-hand"; "set-password"; "unlock-room"; "kick"].

Definition is_known (msg_type : json) : bool :=
  existsb (is_str msg_type) known_types.

(** A room that has kept its host and lost members at most. *)
Definition shrinks (r r' : Room) : Prop :=
  host r' = host r ∧ users r' `sublist_of` users r.

(** A store with the same registry, no new room object, and rooms that have
    only shrunk. *)
Definition settles (w w' : world) : Prop :=
  rooms w' = rooms w
  ∧ ∀ l r', heap w' !! l = Some r' → ∃ r, heap w !! l = Some r ∧ shrinks r r'.

(** A computation that settles the store and never raises
    [WebSocketDisconnect]. *)
Definition tame {A} (m : M A) : Prop :=
  ∀ w, settles w (m w).1.2 ∧ (m w).1.1 ≠ inl WebSocketDisconnect.

(** The socket an event is about, and the sockets a handler may touch: those
    of the members of the room registered under its room id, and those of
    the members of the room object it holds. *)
Definition sock (e : event) : ws :=
  match e with
  | Sent s _ => s
  | Closed s => s
  end.

Definition in_room (r : Room) (s : ws) : Prop := ∃ uid, (uid, s) ∈ users r.

Definition audience (c : conn) (w : world) (s : ws) : Prop :=
  (∃ r, registered w (room_id c) = Some r ∧ in_room r s)
  ∨ (∃ r, heap w !! room c = Some r ∧ in_room r s).

(** A computation that, run from [w], writes to and closes sockets of the
    audience only; a computation that writes nothing. *)
Definition confined_at {A} (c : conn) (m : M A) (w : world) : Prop :=
  ∀ e, e ∈ (m w).2 → audience c w (sock e).

Definition quiet {A} (m : M A) : Prop := ∀ w, (m w).2 = [].

(** *** Sample sessions *)

Definition kick (target : string) : text :=
  frame_of [("type", JStr "kick"); ("kickId", JStr target)].


Definition three_joined : list action :=
  [Connect 1 "r1" "A"; Connect 2 "r1" "B"; Connect 3 "r1" "C"].

Definition lobby : server := (run boot three_joined).1.

Definition connA : conn := mkConn 1 "r1" "A" 0.
Definition connB : conn := mkConn 2 "r1" "B" 0.
Definition connC : conn := mkConn 3 "r1" "C" 0.

(** A and B have joined, then B's socket has broken without a hangup. *)
Definition stale_member : server :=
  (run boot [Connect 1 "r1" "A"; Connect 2 "r1" "B"; Break 2]).1.

Definition roomABC : Room :=
  mkRoom [("A", 1); ("B", 2); ("C", 3)] "A" (JStr "") false.


(** A locked room with its host inside. *)
Definition locked_room : world :=
  mkWorld {[0 := mkRoom [("A", 1)] "A" (JStr "pw") true]} {["r1" := 0]} ∅.

(** The host names its own id in a [kick]. *)
Definition self_kick : list action :=
  [Connect 1 "r1" "A"; Connect 2 "r1" "B"; Receive 1 (kick "A")].

(** The host's socket breaks, then another user joins: the send of
    [user-joined] to the host raises inside [broadcast]. *)
Definition host_lost_in_broadcast : list action :=
  [Connect 1 "r1" "A"; Break 1; Connect 2 "r1" "B"].

(** * Properties *)

(** ** Dictionaries *)

Section DictFacts.
Context {V : Type}.
Implicit Types (d : list (string * V)) (k : string) (v : V).

Lemma get_Some_elem d k v : Dict.get k d = Some v → (k, v) ∈ d.
Proof.
  induction d as [|[k' v'] d IH]; simpl; [done|].
  case_decide as Hk.
  - intros [= ->]. subst k'. left.
  - intros Hg. right. auto.
Qed.

Lemma get_None_keys d k : Dict.get k d = None ↔ k ∉ Dict.keys d.
Proof.
  unfold Dict.keys.
  induction d as [|[k' v'] d IH]; simpl.
  - split; [intros _; apply not_elem_of_nil | done].
  - rewrite not_elem_of_cons, <- IH. case_decide; intuition congruence.
Qed.

Lemma get_elem_NoDup d k v :
  NoDup (Dict.keys d) → (k, v) ∈ d → Dict.get k d = Some v.
Proof.
  unfold Dict.keys.
  induction d as [|[k' v'] d IH]; simpl; intros Hnd Hin.
  - by apply elem_of_nil in Hin.
  - apply NoDup_cons in Hnd as [Hk Hnd].
    apply elem_of_cons in Hin as [Heq|Hin].
    + injection Heq as -> ->. by rewrite decide_True.
    + rewrite decide_False; [auto|].
      intros <-. apply Hk. apply list_elem_of_fmap. by exists (k, v).
Qed.

Lemma filter_all (P : string * V → Prop) `{!∀ p, Decision (P p)} d :
  (∀ p, p ∈ d → P p) → filter P d = d.
Proof.
  induction d as [|p d IH]; intros Hall; [done|].
  rewrite filter_cons_True by (apply Hall; left).
  f_equal. apply IH. intros q Hq. apply Hall. by right.
Qed.

Lemma filter_iff_in (P Q : string * V → Prop)
    `{!∀ p, Decision (P p)} `{!∀ p, Decision (Q p)} d :
  (∀ p, p ∈ d → P p ↔ Q p) → filter P d = filter Q d.
Proof.
  induction d as [|p d IH]; intros Hall; [done|].
  rewrite !filter_cons.
  rewrite IH by (intros q Hq; apply Hall; by right).
  destruct (decide (P p)) as [HP|HP], (decide (Q p)) as [HQ|HQ];
    try done; exfalso; apply (Hall p) in HP || apply HP, (Hall p);
    done || left.
Qed.

(** With no key twice, [del d[k]] drops exactly the entries under [k]. *)
Lemma remove_filter d k :
  NoDup (Dict.keys d) → Dict.remove k d = filter (λ p, p.1 ≠ k) d.
Proof.
  unfold Dict.keys.
  induction d as [|[k' v'] d IH]; simpl; intros Hnd; [done|].
  apply NoDup_cons in Hnd as [Hk Hnd].
  case_decide as Hkk.
  - subst k'. rewrite filter_cons_False by (simpl; naive_solver).
    symmetry. apply filter_all. intros [k1 v1] Hin; simpl. intros ->.
    apply Hk. apply list_elem_of_fmap. by exists (k, v1).
  - rewrite filter_cons_True by (simpl; naive_solver).
    f_equal. auto.
Qed.

Lemma keys_filter_NoDup (P : string * V → Prop) `{!∀ p, Decision (P p)} d :
  NoDup (Dict.keys d) → NoDup (Dict.keys (filter P d)).
Proof.
  unfold Dict.keys.
  induction d as [|p d IH]; simpl; intros Hnd; [done|].
  apply NoDup_cons in Hnd as [Hk Hnd].
  rewrite filter_cons. case_decide; [|auto].
  simpl. apply NoDup_cons. split; [|auto].
  intros Hin. apply Hk.
  apply list_elem_of_fmap in Hin as (q & Hq1 & Hq2).
  apply list_elem_of_filter in Hq2 as [_ Hq2].
  apply list_elem_of_fmap. eauto.
Qed.

Lemma keys_remove_NoDup d k :
  NoDup (Dict.keys d) → NoDup (Dict.keys (Dict.remove k d)).
Proof.
  intros Hnd. rewrite remove_filter by done. by apply keys_filter_NoDup.
Qed.

Lemma get_remove_ne d k k' :
  k ≠ k' → Dict.get k' (Dict.remove k d) = Dict.get k' d.
Proof.
  intros Hne. induction d as [|[k1 v1] d IH]; simpl; [done|].
  destruct (decide (k = k1)) as [->|Hk1]; simpl.
  - by rewrite decide_False by done.
  - by rewrite IH.
Qed.

Lemma get_remove_eq d k :
  NoDup (Dict.keys d) → Dict.get k (Dict.remove k d) = None.
Proof.
  intros Hnd. rewrite remove_filter by done. apply get_None_keys.
  unfold Dict.keys. intros Hin.
  apply list_elem_of_fmap in Hin as (q & -> & Hq).
  apply list_elem_of_filter in Hq as [Hq _]. by apply Hq.
Qed.

Lemma keys_set_NoDup d k v :
  NoDup (Dict.keys d) → NoDup (Dict.keys (Dict.set k v d)).
Proof.
  unfold Dict.keys.
  induction d as [|[k1 v1] d IH]; simpl; intros Hnd.
  - apply NoDup_singleton.
  - apply NoDup_cons in Hnd as [Hk Hnd].
    case_decide as Hkk; simpl.
    + subst k1. by apply NoDup_cons.
    + apply NoDup_cons. split; [|auto].
      intros Hin. apply Hk.
      apply list_elem_of_fmap in Hin as ([k2 v2] & Hq1 & Hq2).
      simpl in Hq1. subst k2.
      clear -Hq2 Hkk. induction d as [|[k3 v3] d IH]; simpl in *.
      * apply list_elem_of_singleton in Hq2. congruence.
      * case_decide as Hk3.
        -- subst k3. apply elem_of_cons in Hq2 as [Hq2|Hq2];
             [congruence | right; apply list_elem_of_fmap; by exists (k1, v2)].
        -- apply elem_of_cons in Hq2 as [Hq2|Hq2];
             [injection Hq2 as -> ->; left | right; auto].
Qed.
End DictFacts.

(** ** The store *)

Lemma with_room_same l r w : heap w !! l = Some r → with_room l r w = w.
Proof.
  intros Hl. destruct w as [h rs dn]; unfold with_room; simpl in *.
  f_equal. by apply insert_id.
Qed.

Lemma with_room_twice l r1 r2 w :
  with_room l r2 (with_room l r1 w) = with_room l r2 w.
Proof. unfold with_room; simpl. f_equal. apply insert_insert_eq. Qed.

Lemma heap_with_room l r w : heap (with_room l r w) !! l = Some r.
Proof. apply lookup_insert_eq. Qed.

Lemma set_users_same (f : Dict.t ws → Dict.t ws) r :
  f (users r) = users r → set_users f r = r.
Proof. destruct r; unfold set_users; simpl. by intros ->. Qed.

Lemma deref_run l r w : heap w !! l = Some r → deref l w = (inr r, w, []).
Proof. intros Hl. unfold deref, bind, get_world, ret. by rewrite Hl. Qed.

Lemma update_run l r f w :
  heap w !! l = Some r → update l f w = (inr tt, with_room l (f r) w, []).
Proof.
  intros Hl. unfold update, bind. rewrite (deref_run l r) by done. done.
Qed.

Lemma del_user_run l r k s w :
  heap w !! l = Some r → Dict.get k (users r) = Some s →
  del_user l (JStr k) w
  = (inr tt, with_room l (set_users (Dict.remove k) r) w, []).
Proof.
  intros Hl Hk. unfold del_user, bind.
  rewrite (deref_run l r) by done. rewrite Hk.
  by rewrite (update_run l r).
Qed.

(** ** [broadcast] *)

Lemma send_text_run s frame w :
  send_text s frame w
  = if decide (s ∈ down w) then (inl SendError, w, [])
    else (inr tt, w, [Sent s frame]).
Proof. unfold send_text, bind, get_world. simpl. by case_decide. Qed.

(** The first loop leaves the store alone, writes to the reached members in
    order and collects the lost ones in order. *)
Lemma broadcast_loop_run frame exclude items acc w :
  broadcast_loop frame exclude items acc w
  = (inr (acc ++ (filter (lost exclude w) items).*1), w,
     deliveries frame exclude w items).
Proof.
  unfold deliveries.
  revert acc. induction items as [|[uid s] items IH]; intros acc; simpl.
  - by rewrite app_nil_r.
  - destruct (decide (Some uid = exclude)) as [Hex|Hex].
    + rewrite IH.
      rewrite (filter_cons_False (lost exclude w)) by (intros [? ?]; done).
      rewrite (filter_cons_False (reached exclude w)) by (intros [? ?]; done).
      done.
    + unfold bind at 1, try_except, bind at 1. rewrite send_text_run.
      destruct (decide (s ∈ down w)) as [Hd|Hd]; simpl.
      * rewrite IH.
        rewrite (filter_cons_True (lost exclude w)) by done.
        rewrite (filter_cons_False (reached exclude w))
          by (intros [? ?]; done).
        simpl. by rewrite <- app_assoc.
      * rewrite IH.
        rewrite (filter_cons_False (lost exclude w)) by (intros [? ?]; done).
        rewrite (filter_cons_True (reached exclude w)) by done.
        done.
Qed.

(** The second loop, on keys of the dictionary that are pairwise distinct. *)
Lemma remove_all_run l uids : ∀ r w,
  heap w !! l = Some r →
  NoDup (Dict.keys (users r)) →
  NoDup uids →
  uids ⊆ Dict.keys (users r) →
  remove_all l uids w
  = (inr tt, with_room l (set_users (filter (λ p, p.1 ∉ uids)) r) w, []).
Proof.
  induction uids as [|uid uids IH]; intros r w Hl Hnd Hnu Hsub; simpl.
  - rewrite set_users_same, with_room_same; [done|done|].
    apply filter_all. intros p _. apply not_elem_of_nil.
  - apply NoDup_cons in Hnu as [Hu Hnu].
    assert (is_Some (Dict.get uid (users r))) as [s Hs].
    { destruct (Dict.get uid (users r)) eqn:Hg; [eauto|].
      apply get_None_keys in Hg. destruct Hg. apply Hsub. left. }
    unfold bind. rewrite (del_user_run l r uid s) by done.
    rewrite (IH (set_users (Dict.remove uid) r)); simpl.
    + rewrite with_room_twice. unfold set_users; simpl.
      rewrite remove_filter by done. rewrite list_filter_filter.
      rewrite (list_filter_iff _ (λ p, p.1 ∉ uid :: uids)); [done|].
      intros p. rewrite not_elem_of_cons. tauto.
    + apply heap_with_room.
    + by apply keys_remove_NoDup.
    + done.
    + intros k Hk. rewrite remove_filter by done.
      unfold Dict.keys. apply list_elem_of_fmap.
      assert (k ∈ Dict.keys (users r)) as Hin by (apply Hsub; by right).
      apply list_elem_of_fmap in Hin as (p & -> & Hp).
      exists p. split; [done|]. apply list_elem_of_filter. split; [|done].
      intros Heq. apply Hu. by rewrite <- Heq.
Qed.

Lemma lost_keys exclude w (d : list (string * ws)) :
  NoDup (Dict.keys d) →
  filter (λ p, p.1 ∉ (filter (lost exclude w) d).*1) d = survivors exclude w d.
Proof.
  intros Hnd. unfold survivors. apply filter_iff_in. intros [k s] Hin; simpl.
  split; intros Hn Hl; apply Hn.
  - apply list_elem_of_fmap. exists (k, s). split; [done|].
    by apply list_elem_of_filter.
  - apply list_elem_of_fmap in Hl as ([k' s'] & Hk & Hq). simpl in Hk.
    subst k'. apply list_elem_of_filter in Hq as [Hq Hq'].
    assert (s' = s) as ->; [|done].
    apply (get_elem_NoDup _ _ _ Hnd) in Hin, Hq'. congruence.
Qed.

Lemma lost_NoDup exclude w (d : list (string * ws)) :
  NoDup (Dict.keys d) → NoDup (filter (lost exclude w) d).*1.
Proof. apply keys_filter_NoDup; apply _. Qed.

(** A broadcast to a registered room never raises: it writes the frame to
    every reached member in dictionary order and drops the lost ones. *)
Lemma broadcast_run rid msg exclude l r w :
  rooms w !! rid = Some l →
  heap w !! l = Some r →
  NoDup (Dict.keys (users r)) →
  broadcast rid msg exclude w
  = (inr tt, with_room l (set_users (survivors exclude w) r) w,
     deliveries (frame_for msg) exclude w (users r)).
Proof.
  intros Hrid Hl Hnd. unfold broadcast, bind at 1, rooms_get, bind at 1.
  unfold get_world at 1, ret at 1. rewrite Hrid.
  unfold bind at 1. rewrite (deref_run l r) by done.
  unfold bind. rewrite broadcast_loop_run. simpl.
  rewrite (remove_all_run l _ r) by
    (done || (by apply lost_NoDup) ||
     (intros k Hk; apply list_elem_of_fmap in Hk as (p & -> & Hp);
      apply list_elem_of_filter in Hp as [_ Hp];
      by apply list_elem_of_fmap_2)).
  rewrite app_nil_r. unfold set_users; simpl. by rewrite lost_keys.
Qed.

Lemma broadcast_absent rid msg exclude w :
  rooms w !! rid = None → broadcast rid msg exclude w = (inr tt, w, []).
Proof.
  intros Hrid. unfold broadcast, bind, rooms_get, bind, get_world, ret.
  by rewrite Hrid.
Qed.

(** ** Running the monad *)

Lemma bind_ret {A B} (a : A) (f : A → M B) w : bind (ret a) f w = f a w.
Proof. unfold bind, ret. by destruct (f a w) as [[? ?] ?]. Qed.

Lemma bind_run {A B} (m : M A) (f : A → M B) w a w1 o1 :
  m w = (inr a, w1, o1) →
  bind m f w = let '(r, w2, o2) := f a w1 in (r, w2, o1 ++ o2).
Proof. intros Hm. unfold bind. by rewrite Hm. Qed.

Lemma bind_quiet {A B} (m : M A) (f : A → M B) w a w1 :
  m w = (inr a, w1, []) → bind m f w = f a w1.
Proof.
  intros Hm. unfold bind. rewrite Hm. by destruct (f a w1) as [[? ?] ?].
Qed.

Lemma bind_ext {A B} (m : M A) (f g : A → M B) w :
  (∀ a w1, f a w1 = g a w1) → bind m f w = bind m g w.
Proof.
  intros Hfg. unfold bind. destruct (m w) as [[[e|a] w1] o1]; [done|].
  by rewrite Hfg.
Qed.

Lemma bind_raise {A B} (m : M A) (f : A → M B) w e w1 o1 :
  m w = (inl e, w1, o1) → bind m f w = (inl e, w1, o1).
Proof. intros Hm. unfold bind. by rewrite Hm. Qed.

(** ** One turn of the loop *)

Lemma turn_continue c msg w w' out :
  dispatch c msg w = (inr tt, w', out) →
  endpoint_turn c (Frame msg) w = (inr Continue, w', out).
Proof.
  intros Hd. unfold endpoint_turn, try_except; simpl.
  rewrite bind_ret. rewrite (bind_run _ _ _ _ _ _ Hd). simpl.
  by rewrite app_nil_r.
Qed.

Lemma turn_escape c msg w w' out e :
  dispatch c msg w = (inl e, w', out) →
  e ≠ WebSocketDisconnect →
  endpoint_turn c (Frame msg) w = (inl e, w', out).
Proof.
  intros Hd He. unfold endpoint_turn, try_except; simpl.
  rewrite bind_ret. rewrite (bind_raise _ _ _ _ _ _ Hd).
  destruct e; try done; simpl; by rewrite app_nil_r.
Qed.

Lemma turn_hangup c w :
  endpoint_turn c Hangup w
  = bind (handle_disconnect (room_id c) (user_id c)) (λ _, ret Return) w.
Proof.
  unfold endpoint_turn, try_except; simpl.
  by destruct (bind _ _ w) as [[? ?] ?].
Qed.

(** The decoded message of a frame that holds an object, and its type. *)
Lemma dispatch_object c items w :
  dispatch c (frame_of items) w
  = (let msg_type := default JNull (assoc "type" items) in
     let target := default JNull (assoc "target" items) in
     if existsb (is_str msg_type) relayed then
       send_to_user (room_id c) target (frame_of items)
     else if is_str msg_type "chat" then
       text_of_chat <- py_get (JObj items) "message" JNull ;;
       broadcast (room_id c)
         (Obj (JObj [("type", JStr "chat"); ("userId", JStr (user_id c));
                     ("message", text_of_chat)])) None
     else if is_str msg_type "raise-hand" then
       broadcast (room_id c)
         (Obj (JObj [("type", JStr "raise-hand");
                     ("userId", JStr (user_id c))]))
         None
     else if is_str msg_type "set-password" then
       r <- deref (room c) ;;
       if decide (user_id c = host r) then
         pw <- py_get (JObj items) "password" (JStr "") ;;
         update (room c) (set_password pw) ;;
         update (room c) (set_locked true) ;;
         broadcast (room_id c)
           (Obj (JObj [("type", JStr "room-locked"); ("locked", JBool true)]))
           None
       else ret tt
     else if is_str msg_type "unlock-room" then
       r <- deref (room c) ;;
       if decide (user_id c = host r) then
         update (room c) (set_locked false) ;;
         broadcast (room_id c)
           (Obj (JObj [("type", JStr "room-locked"); ("locked", JBool false)]))
           None
       else ret tt
     else if is_str msg_type "kick" then
       r <- deref (room c) ;;
       if decide (user_id c = host r) then
         kick_id <- py_get (JObj items) "kickId" JNull ;;
         r <- deref (room c) ;;
         present <- py_in kick_id (users r) ;;
         if present : bool then
           send_to_user (room_id c) kick_id
             (json_dumps (JObj [("type", JStr "kicked")])) ;;
           r <- deref (room c) ;;
           s <- py_item kick_id (users r) ;;
           close s ;;
           del_user (room c) kick_id ;;
           notify_users (room_id c)
             (JObj (kick_user_left kick_id))
         else ret tt
       else ret tt
     else
       broadcast (room_id c) (Obj (JObj items)) (Some (user_id c))) w.
Proof.
  unfold dispatch, frame_of, json_loads, py_get at 1 2.
  by rewrite !bind_ret.
Qed.

(** ** The properties of the specification *)



Lemma lobby_state :
  state lobby = mkWorld {[0 := roomABC]} {["r1" := 0]} ∅
  ∧ handlers lobby = {[1 := connA; 2 := connB; 3 := connC]}.
Proof. split; vm_compute; reflexivity. Qed.


Lemma registered_inv w rid r :
  registered w rid = Some r →
  ∃ l, rooms w !! rid = Some l ∧ heap w !! l = Some r.
Proof.
  unfold registered. destruct (rooms w !! rid) as [l|]; simpl; [eauto|done].
Qed.

Lemma registered_with_room w rid l r :
  rooms w !! rid = Some l → registered (with_room l r w) rid = Some r.
Proof.
  intros Hrid. unfold registered, with_room; simpl. rewrite Hrid; simpl.
  apply lookup_insert_eq.
Qed.

Lemma rooms_get_run rid w : rooms_get rid w = (inr (rooms w !! rid), w, []).
Proof. reflexivity. Qed.

Lemma rooms_item_run rid l w :
  rooms w !! rid = Some l → rooms_item rid w = (inr l, w, []).
Proof.
  intros Hrid. unfold rooms_item.
  by rewrite (bind_quiet _ _ _ _ _ (rooms_get_run rid w)), Hrid.
Qed.

(** C10. The disconnect cleanup for a user id that is not a key of the
    members of the registered room changes nothing and writes nothing: the
    registry and every room (members, host, locked, password) stay as they
    were, so there is no [user-left] broadcast, no promotion and no
    deletion; the handler that runs it on a hangup just returns. *)
Theorem disconnect_of_non_member_is_silent rid uid r w :
  registered w rid = Some r →
  Dict.get uid (users r) = None →
  handle_disconnect rid uid w = (inr tt, w, [])
  ∧ ∀ s l, endpoint_turn (mkConn s rid uid l) Hangup w = (inr Return, w, []).
Proof.
  intros (l & Hrid & Hl)%registered_inv Hget.
  assert (handle_disconnect rid uid w = (inr tt, w, [])) as Hd.
  { unfold handle_disconnect.
    rewrite (bind_quiet _ _ _ _ _ (rooms_get_run rid w)), Hrid.
    rewrite (bind_quiet _ _ _ _ _ (deref_run _ _ _ Hl)).
    unfold py_in. rewrite Hget. by rewrite bind_ret. }
  split; [done|]. intros s l'. rewrite turn_hangup; simpl.
  by rewrite (bind_run _ _ _ _ _ _ Hd).
Qed.

Lemma disconnect_of_non_member_witness :
  handle_disconnect "r1" "D" (state lobby) = (inr tt, state lobby, [])
  ∧ ∀ s l, endpoint_turn (mkConn s "r1" "D" l) Hangup (state lobby)
           = (inr Return, state lobby, []).
Proof.
  apply (disconnect_of_non_member_is_silent "r1" "D" roomABC).
  - vm_compute; reflexivity.
  - reflexivity.
Defined.

(** C5. A join of a locked room by a user who is not its host never admits
    the user and leaves every room and the registry as they were; whatever is
    written goes to the joiner's own socket, so no [user-joined] frame
    reaches anyone; and on a socket that takes the frame the joiner gets the
    [error] event and is closed right after. *)
Theorem locked_room_rejects_non_host s rid uid r w :
  registered w rid = Some r →
  locked r = true →
  uid ≠ host r →
  ∃ res w' out,
    endpoint_join s rid uid w = (res, w', out)
    ∧ (∀ c, res ≠ inr (Some c))
    ∧ heap w' = heap w ∧ rooms w' = rooms w
    ∧ (∀ e, e ∈ out → e = Sent s (json_dumps error_locked) ∨ e = Closed s)
    ∧ (s ∉ down w →
       res = inr None
       ∧ out = [Sent s (json_dumps error_locked); Closed s]).
Proof.
  intros (l & Hrid & Hl)%registered_inv Hlock Hne.
  unfold endpoint_join.
  rewrite (bind_quiet _ _ _ _ _ (rooms_get_run rid w)), Hrid.
  rewrite bind_ret.
  rewrite (bind_quiet _ _ _ _ _ (rooms_item_run _ _ _ Hrid)).
  rewrite (bind_quiet _ _ _ _ _ (deref_run _ _ _ Hl)).
  rewrite Hlock, bool_decide_eq_true_2 by done. simpl.
  unfold bind at 1. rewrite send_text_run.
  destruct (decide (s ∈ down w)) as [Hd|Hd].
  - exists (inl SendError), w, []. repeat split; try done.
    intros e He. by apply elem_of_nil in He.
  - unfold bind, close, bind, get_world, put_world, emit; simpl.
    rewrite decide_False by done. simpl.
    eexists _, _, _. split; [reflexivity|]. repeat split; try done.
    intros e He. rewrite !elem_of_cons in He.
    destruct He as [->|[->|He]]; auto. by apply elem_of_nil in He.
Qed.

Lemma locked_room_rejects_non_host_witness :
  ∃ res w' out,
    endpoint_join 4 "r1" "D" locked_room = (res, w', out)
    ∧ (∀ c, res ≠ inr (Some c))
    ∧ heap w' = heap locked_room ∧ rooms w' = rooms locked_room
    ∧ (∀ e, e ∈ out → e = Sent 4 (json_dumps error_locked) ∨ e = Closed 4)
    ∧ (4 ∉ down locked_room →
       res = inr None
       ∧ out = [Sent 4 (json_dumps error_locked); Closed 4]).
Proof.
  apply (locked_room_rejects_non_host 4 "r1" "D"
           (mkRoom [("A", 1)] "A" (JStr "pw") true)).
  - vm_compute; reflexivity.
  - reflexivity.
  - vm_compute; discriminate.
Defined.

(** ** [send_to_user] *)

Lemma send_to_user_member rid b sb l r frame w :
  rooms w !! rid = Some l →
  heap w !! l = Some r →
  Dict.get b (users r) = Some sb →
  send_to_user rid (JStr b) frame w
  = if decide (sb ∈ down w)
    then (inr tt, with_room l (set_users (Dict.remove b) r) w, [])
    else (inr tt, w, [Sent sb frame]).
Proof.
  intros Hrid Hl Hb. unfold send_to_user.
  rewrite (bind_quiet _ _ _ _ _ (rooms_get_run rid w)), Hrid.
  rewrite (bind_quiet _ _ _ _ _ (deref_run _ _ _ Hl)).
  unfold py_in, py_item. rewrite Hb, !bind_ret.
  unfold try_except. rewrite bind_ret, send_text_run.
  destruct (decide (sb ∈ down w)); [|done].
  by rewrite (del_user_run l r b sb).
Qed.

Lemma send_to_user_absent rid key frame w :
  rooms w !! rid = None → send_to_user rid key frame w = (inr tt, w, []).
Proof.
  intros Hrid. unfold send_to_user.
  by rewrite (bind_quiet _ _ _ _ _ (rooms_get_run rid w)), Hrid.
Qed.

Lemma send_to_user_null rid l r frame w :
  rooms w !! rid = Some l →
  heap w !! l = Some r →
  send_to_user rid JNull frame w = (inr tt, w, []).
Proof.
  intros Hrid Hl. unfold send_to_user.
  rewrite (bind_quiet _ _ _ _ _ (rooms_get_run rid w)), Hrid.
  by rewrite (bind_quiet _ _ _ _ _ (deref_run _ _ _ Hl)).
Qed.

Lemma relayed_type t : t ∈ relayed → existsb (is_str (JStr t)) relayed = true.
Proof.
  unfold relayed. rewrite !elem_of_cons.
  intros [->|[->|[->|H]]]; [done..|by apply elem_of_nil in H].
Qed.

(** C9. An [offer], [answer] or [ice-candidate] message addressed to a
    member B of the sender's room writes at most one frame: the message
    itself, unmodified, on B's socket.  No frame goes to the socket of any
    other member, and the loop goes on; when B's socket takes the frame the
    store is left as it was. *)
Theorem relay_reaches_target_only c items t b sb r w :
  assoc "type" items = Some (JStr t) →
  t ∈ relayed →
  assoc "target" items = Some (JStr b) →
  registered w (room_id c) = Some r →
  Dict.get b (users r) = Some sb →
  ∃ w' out,
    endpoint_turn c (Frame (frame_of items)) w = (inr Continue, w', out)
    ∧ (∀ e, e ∈ out → e = Sent sb (frame_of items))
    ∧ (sb ∉ down w → out = [Sent sb (frame_of items)] ∧ w' = w).
Proof.
  intros Hty Ht Htarget (l & Hrid & Hl)%registered_inv Hb.
  assert (dispatch c (frame_of items) w
          = send_to_user (room_id c) (JStr b) (frame_of items) w) as Hd.
  { rewrite dispatch_object, Hty, Htarget. cbv zeta.
    change (default JNull (Some (JStr t))) with (JStr t).
    by rewrite relayed_type. }
  rewrite (send_to_user_member _ _ _ _ _ _ _ Hrid Hl Hb) in Hd.
  destruct (decide (sb ∈ down w)) as [Hdown|Hup].
  - eexists _, _. split; [by apply turn_continue|]. split; [|done].
    intros e He. by apply elem_of_nil in He.
  - eexists _, _. split; [by apply turn_continue|]. split; [|done].
    intros e He. by apply list_elem_of_singleton in He.
Qed.

Lemma relay_reaches_target_only_witness :
  ∃ w' out,
    endpoint_turn connA
      (Frame (frame_of [("type", JStr "ice-candidate"); ("target", JStr "B");
                        ("candidate", JStr "udp 192.0.2.1 5000")]))
      (state lobby)
    = (inr Continue, w', out)
    ∧ (∀ e, e ∈ out →
         e = Sent 2 (frame_of [("type", JStr "ice-candidate");
                               ("target", JStr "B");
                               ("candidate", JStr "udp 192.0.2.1 5000")]))
    ∧ (2 ∉ down (state lobby) →
       out = [Sent 2 (frame_of [("type", JStr "ice-candidate");
                                ("target", JStr "B");
                                ("candidate", JStr "udp 192.0.2.1 5000")])]
       ∧ w' = state lobby).
Proof.
  apply (relay_reaches_target_only connA _ "ice-candidate" "B" 2 roomABC).
  - reflexivity.
  - unfold relayed. set_solver.
  - reflexivity.
  - vm_compute; reflexivity.
  - reflexivity.
Defined.

(** ** Broadcasts to the whole room *)

Lemma survivors_alive w (d : list (string * ws)) :
  survivors None w d = alive w d.
Proof.
  unfold survivors, alive. apply list_filter_iff. intros p. unfold lost.
  split.
  - intros Hn Hd. by apply Hn.
  - intros Hn [_ Hd]. by apply Hn.
Qed.

Lemma deliveries_alive frame w (d : list (string * ws)) :
  deliveries frame None w d = (λ p, Sent p.2 frame) <$> alive w d.
Proof.
  unfold deliveries, alive. f_equal. apply list_filter_iff. intros p.
  unfold reached. split; [by intros [_ ?]|done].
Qed.


Lemma alive_all w (d : list (string * ws)) :
  (∀ p, p ∈ d → p.2 ∉ down w) → alive w d = d.
Proof. apply filter_all. Qed.






(** ** Join order *)

(** The dictionary of members lists them in the order of their joins: a new
    id goes to the end, an id that is present keeps its place. *)
Lemma set_new_appends {V} (d : list (string * V)) k v :
  Dict.get k d = None → Dict.set k v d = d ++ [(k, v)].
Proof.
  induction d as [|[k' v'] d IH]; simpl; [done|].
  case_decide; [done|]. intros Hg. by rewrite IH.
Qed.

Lemma set_present_keeps_keys {V} (d : list (string * V)) k v :
  is_Some (Dict.get k d) → Dict.keys (Dict.set k v d) = Dict.keys d.
Proof.
  unfold Dict.keys.
  induction d as [|[k' v'] d IH]; simpl; [by intros [? ?]|].
  case_decide as Hk; simpl; [by subst|]. intros Hg. f_equal. by apply IH.
Qed.

(** ** [handle_disconnect] *)

Lemma py_in_member k s (d : list (string * ws)) w :
  Dict.get k d = Some s → py_in (JStr k) d w = (inr true, w, []).
Proof. intros Hk. unfold py_in. by rewrite Hk. Qed.

(** C4, as stated, fails: A, B and C join, the socket of the host A breaks,
    and a chat from B makes [broadcast] drop A from the members.  A's hangup
    then finds A absent, the cleanup stops at its membership test, and the
    room keeps B and C with A as host: nobody is promoted. *)
Lemma hangup_of_dropped_host_promotes_nobody :
  registered
    (state (run boot (three_joined
                      ++ [Break 1;
                          Receive 2 (frame_of [("type", JStr "chat")])])).1)
    "r1"
  = Some (mkRoom [("B", 2); ("C", 3)] "A" (JStr "") false)
  ∧ registered
      (state (run boot (three_joined
                        ++ [Break 1;
                            Receive 2 (frame_of [("type", JStr "chat")]);
                            Disconnect 1])).1)
      "r1"
    = Some (mkRoom [("B", 2); ("C", 3)] "A" (JStr "") false)
  ∧ ¬ (∀ rid uid r first w,
         registered w rid = Some r →
         host r = uid →
         Dict.first_key (Dict.remove uid (users r)) = Some first →
         ∃ r', registered (handle_disconnect rid uid w).1.2 rid = Some r'
               ∧ host r' = first).
Proof.
  split; [vm_compute; reflexivity|].
  split; [vm_compute; reflexivity|].
  intros Hclaim.
  destruct (Hclaim "r1" "A"
              (mkRoom [("B", 2); ("C", 3)] "A" (JStr "") false) "B"
              (mkWorld
                 {[0 := mkRoom [("B", 2); ("C", 3)] "A" (JStr "") false]}
                 {["r1" := 0]} {[1]}))
    as (r' & Hr' & Hhost).
  - vm_compute; reflexivity.
  - reflexivity.
  - reflexivity.
  - vm_compute in Hr'. injection Hr' as <-. discriminate Hhost.
Qed.

(** C4, amended. When the host of a registered room disconnects while it is
    still a key of the members and other members remain,
    [handle_disconnect] makes the first of the remaining members, in
    dictionary order, which is the order of their joins, the new host; the
    [user-left] event, carrying the departed id and the new host, goes to
    the remaining members whose socket takes it. *)
Theorem host_leaves_earliest_joined_promoted rid uid s r first w :
  registered w rid = Some r →
  NoDup (Dict.keys (users r)) →
  host r = uid →
  Dict.get uid (users r) = Some s →
  Dict.first_key (Dict.remove uid (users r)) = Some first →
  let rest := alive w (Dict.remove uid (users r)) in
  ∃ w',
    handle_disconnect rid uid w
    = (inr tt, w', (λ p, Sent p.2 (json_dumps (user_left uid first))) <$> rest)
    ∧ registered w' rid = Some (mkRoom rest first (password r) (locked r)).
Proof.
  intros (l & Hrid & Hl)%registered_inv Hnd Hhost Hget Hfirst rest.
  set (r1 := set_users (Dict.remove uid) r).
  set (r2 := set_host first r1).
  assert (heap (with_room l r1 w) !! l = Some r1) as Hl1
    by apply heap_with_room.
  assert (heap (with_room l r2 w) !! l = Some r2) as Hl2
    by apply heap_with_room.
  assert (NoDup (Dict.keys (users r2))) as Hnd2.
  { unfold r2, r1; simpl. by apply keys_remove_NoDup. }
  exists (with_room l (set_users (survivors None (with_room l r2 w)) r2) w).
  split.
  - unfold handle_disconnect.
    rewrite (bind_quiet _ _ _ _ _ (rooms_get_run rid w)), Hrid.
    rewrite (bind_quiet _ _ _ _ _ (deref_run _ _ _ Hl)).
    rewrite (bind_quiet _ _ _ _ _ (py_in_member _ _ _ _ Hget)).
    rewrite (bind_quiet _ _ _ _ _ (del_user_run _ _ _ _ _ Hl Hget)).
    fold r1.
    rewrite (bind_quiet _ _ _ _ _ (deref_run _ _ _ Hl1)).
    rewrite decide_True by (by rewrite <- Hhost).
    change (users r1) with (Dict.remove uid (users r)). rewrite Hfirst.
    assert ((update l (set_host first);; ret false) (with_room l r1 w)
            = (inr false, with_room l r2 w, [])) as Hup.
    { rewrite (bind_quiet _ _ _ _ _ (update_run _ _ (set_host first) _ Hl1)).
      by rewrite with_room_twice. }
    rewrite (bind_quiet _ _ _ _ _ Hup).
    rewrite (bind_quiet _ _ _ _ _ (deref_run _ _ _ Hl2)).
    unfold notify_users.
    rewrite (broadcast_run rid _ None l r2 (with_room l r2 w)) by done.
    rewrite with_room_twice, deliveries_alive. done.
  - rewrite (registered_with_room _ _ _ _ Hrid).
    unfold set_users. rewrite survivors_alive. done.
Qed.

Lemma host_leaves_witness :
  ∃ w',
    handle_disconnect "r1" "A" (state lobby)
    = (inr tt, w',
       [Sent 2 (json_dumps (user_left "A" "B"));
        Sent 3 (json_dumps (user_left "A" "B"))])
    ∧ registered w' "r1"
      = Some (mkRoom [("B", 2); ("C", 3)] "B" (JStr "") false).
Proof.
  apply (host_leaves_earliest_joined_promoted "r1" "A" 1 roomABC "B"
           (state lobby)).
  - vm_compute; reflexivity.
  - apply (bool_decide_unpack _). vm_compute; reflexivity.
  - reflexivity.
  - reflexivity.
  - reflexivity.
Defined.

(** The order law on a whole session: A, B and C join in this order, then
    the host A hangs up. *)
Example order_law :
  registered (state (run boot (three_joined ++ [Disconnect 1])).1) "r1"
  = Some (mkRoom [("B", 2); ("C", 3)] "B" (JStr "") false).
Proof. vm_compute. reflexivity. Qed.

(** ** Soundness of the store *)

Lemma sound_with_room l r w :
  sound w → NoDup (Dict.keys (users r)) → sound (with_room l r w).
Proof.
  intros [Hreg Hheap] Hnd. split; simpl.
  - intros rid l' Hl'. apply lookup_insert_is_Some'. right.
    by apply (Hreg rid).
  - by apply map_Forall_insert_2.
Qed.

Lemma sound_registered w rid l :
  sound w → rooms w !! rid = Some l →
  ∃ r, heap w !! l = Some r ∧ NoDup (Dict.keys (users r)).
Proof.
  intros [Hreg Hheap] Hrid. destruct (Hreg rid l Hrid) as [r Hl].
  exists r. split; [done|]. by apply (Hheap l).
Qed.

Lemma broadcast_sound rid msg exclude w :
  sound w →
  ∃ w' out, broadcast rid msg exclude w = (inr tt, w', out) ∧ sound w'.
Proof.
  intros Hs. destruct (rooms w !! rid) as [l|] eqn:Hrid.
  - destruct (sound_registered _ _ _ Hs Hrid) as (r & Hl & Hnd).
    eexists _, _. split; [by apply (broadcast_run _ _ _ l r)|].
    apply sound_with_room; [done|]. by apply keys_filter_NoDup.
  - eexists _, _. split; [by apply broadcast_absent|done].
Qed.

(** ** The branches of [dispatch] *)

Lemma dispatch_untyped c items w :
  assoc "type" items = None →
  dispatch c (frame_of items) w
  = broadcast (room_id c) (Obj (JObj items)) (Some (user_id c)) w.
Proof. intros Hty. by rewrite dispatch_object, Hty. Qed.

Lemma dispatch_relayed c items t w :
  assoc "type" items = Some (JStr t) →
  t ∈ relayed →
  dispatch c (frame_of items) w
  = send_to_user (room_id c) (default JNull (assoc "target" items))
      (frame_of items) w.
Proof.
  intros Hty Ht. rewrite dispatch_object, Hty. cbv zeta.
  change (default JNull (Some (JStr t))) with (JStr t).
  by rewrite relayed_type.
Qed.

Lemma dispatch_chat c items w :
  assoc "type" items = Some (JStr "chat") →
  dispatch c (frame_of items) w
  = broadcast (room_id c)
      (Obj (JObj [("type", JStr "chat"); ("userId", JStr (user_id c));
                  ("message", default JNull (assoc "message" items))]))
      None w.
Proof.
  intros Hty. rewrite dispatch_object, Hty. cbv zeta.
  change (default JNull (Some (JStr "chat"))) with (JStr "chat").
  change (existsb (is_str (JStr "chat")) relayed) with false.
  change (is_str (JStr "chat") "chat") with true. cbv iota.
  unfold py_get. by rewrite bind_ret.
Qed.

Lemma dispatch_set_password c items w :
  assoc "type" items = Some (JStr "set-password") →
  dispatch c (frame_of items) w
  = (r <- deref (room c) ;;
     if decide (user_id c = host r) then
       update (room c)
         (set_password (default (JStr "") (assoc "password" items))) ;;
       update (room c) (set_locked true) ;;
       broadcast (room_id c)
         (Obj (JObj [("type", JStr "room-locked"); ("locked", JBool true)]))
         None
     else ret tt) w.
Proof.
  intros Hty. rewrite dispatch_object, Hty. cbv zeta.
  change (default JNull (Some (JStr "set-password")))
    with (JStr "set-password").
  change (existsb (is_str (JStr "set-password")) relayed) with false.
  change (is_str (JStr "set-password") "chat") with false.
  change (is_str (JStr "set-password") "raise-hand") with false.
  change (is_str (JStr "set-password") "set-password") with true.
  cbv iota. apply bind_ext. intros r w1.
  case_decide; [|done]. unfold py_get. by rewrite bind_ret.
Qed.

Lemma dispatch_kick c items w :
  assoc "type" items = Some (JStr "kick") →
  dispatch c (frame_of items) w
  = (r <- deref (room c) ;;
     if decide (user_id c = host r) then
       let kick_id := default JNull (assoc "kickId" items) in
       r <- deref (room c) ;;
       present <- py_in kick_id (users r) ;;
       if present : bool then
         send_to_user (room_id c) kick_id
           (json_dumps (JObj [("type", JStr "kicked")])) ;;
         r <- deref (room c) ;;
         s <- py_item kick_id (users r) ;;
         close s ;;
         del_user (room c) kick_id ;;
         notify_users (room_id c)
           (JObj (kick_user_left kick_id))
       else ret tt
     else ret tt) w.
Proof.
  intros Hty. rewrite dispatch_object, Hty. cbv zeta.
  change (default JNull (Some (JStr "kick"))) with (JStr "kick").
  change (existsb (is_str (JStr "kick")) relayed) with false.
  change (is_str (JStr "kick") "chat") with false.
  change (is_str (JStr "kick") "raise-hand") with false.
  change (is_str (JStr "kick") "set-password") with false.
  change (is_str (JStr "kick") "unlock-room") with false.
  change (is_str (JStr "kick") "kick") with true.
  cbv iota. apply bind_ext. intros r w1.
  case_decide; [|done]. unfold py_get. by rewrite bind_ret.
Qed.

(** C1, as stated, fails: B has been admitted to the room, the text it then
    sends is not JSON, and the turn neither returns to the loop nor runs the
    cleanup: the error leaves the handler, which ends. *)
Lemma undecodable_message_ends_the_handler :
  handlers lobby !! 2 = Some connB
  ∧ endpoint_turn connB (Frame (Garbage "{")) (state lobby)
    = (inl JSONDecodeError, state lobby, [])
  ∧ handlers (step lobby (Receive 2 (Garbage "{"))).1 !! 2 = None
  ∧ ¬ (∀ c raw w,
         is_Some (heap w !! room c) →
         ∃ w' out,
           endpoint_turn c (Frame (Garbage raw)) w = (inr Continue, w', out)).
Proof.
  split; [vm_compute; reflexivity|].
  split; [vm_compute; reflexivity|].
  split; [vm_compute; reflexivity|].
  intros Hclaim.
  destruct (Hclaim connB "{" (state lobby)) as (w' & out & Hturn).
  - vm_compute. eauto.
  - vm_compute in Hturn. discriminate Hturn.
Qed.

Lemma lacks_required_cases items :
  lacks_required items →
  assoc "type" items = None
  ∨ ∃ t k, assoc "type" items = Some (JStr t)
           ∧ required t = Some k ∧ assoc k items = None.
Proof.
  unfold lacks_required.
  destruct (assoc "type" items) as [[| | | |t| |]|]; try done; [|by left].
  destruct (required t) as [k|] eqn:Hk; [|done].
  intros Hnone. right. by exists t, k.
Qed.

(** Texts that do not decode to an object end the handler; objects that lack
    a field do not, and leave the store sound. *)
Lemma malformed_message_loop c w :
  (∀ raw,
     endpoint_turn c (Frame (Garbage raw)) w = (inl JSONDecodeError, w, []))
  ∧ (∀ v, (∀ items, v ≠ JObj items) →
       endpoint_turn c (Frame (Encoded v)) w = (inl AttributeError, w, []))
  ∧ (∀ items,
       sound w → is_Some (heap w !! room c) → lacks_required items →
       ∃ w' out,
         endpoint_turn c (Frame (frame_of items)) w = (inr Continue, w', out)
         ∧ sound w').
Proof.
  split; [|split].
  - intros raw. by apply turn_escape.
  - intros v Hv. apply turn_escape; [|done].
    destruct v; try done. by destruct (Hv items).
  - intros items Hs [r0 Hl0] Hlack.
    assert (∃ w' out, dispatch c (frame_of items) w = (inr tt, w', out)
                      ∧ sound w') as (w' & out & Hd & Hs');
      [|exists w', out; split; [by apply turn_continue|done]].
    apply lacks_required_cases in Hlack as [Hty|(t & k & Hty & Hk & Hnone)].
    { rewrite dispatch_untyped by done. by apply broadcast_sound. }
    unfold required in Hk. repeat case_bool_decide; simplify_eq.
    + rewrite (dispatch_relayed c items t) by done. rewrite Hnone.
      destruct (rooms w !! room_id c) as [l|] eqn:Hrid.
      * destruct (sound_registered _ _ _ Hs Hrid) as (r & Hl & _).
        exists w, []. split; [|done]. by apply (send_to_user_null _ l r).
      * exists w, []. split; [|done]. by apply send_to_user_absent.
    + rewrite dispatch_chat by done. by apply broadcast_sound.
    + rewrite dispatch_set_password by done. rewrite Hnone.
      rewrite (bind_quiet _ _ _ _ _ (deref_run _ _ _ Hl0)).
      case_decide; [|by exists w, []].
      rewrite (bind_quiet _ _ _ _ _ (update_run _ _ _ _ Hl0)).
      rewrite (bind_quiet _ _ _ _ _
                 (update_run _ _ (set_locked true) _ (heap_with_room _ _ _))).
      rewrite with_room_twice. apply broadcast_sound.
      apply sound_with_room; [done|]. simpl.
      destruct Hs as [_ Hheap]. by apply (Hheap (room c)).
    + rewrite dispatch_kick by done. rewrite Hnone.
      rewrite (bind_quiet _ _ _ _ _ (deref_run _ _ _ Hl0)).
      case_decide; [|by exists w, []]. cbv zeta.
      rewrite (bind_quiet _ _ _ _ _ (deref_run _ _ _ Hl0)).
      change (default JNull None) with JNull. unfold py_in.
      exists w, []. split; [|done]. by rewrite bind_ret.
Qed.

Lemma sound_lobby : sound (state lobby).
Proof.
  split; apply (bool_decide_unpack _); vm_compute; reflexivity.
Qed.

(** ** Where the code departs from the invariants *)

(** C2 on the code: after the host A has kicked itself out of a room it
    shares with B, and likewise after A has been dropped by a broadcast
    whose send to it raised, the room is registered with B as its only
    member and A as its host.  The hangup of A that follows finds A absent
    and promotes nobody; [handle_disconnect] is the only place that
    promotes. *)
Theorem host_outside_members :
  registered (state (run boot self_kick).1) "r1"
  = Some (mkRoom [("B", 2)] "A" (JStr "") false)
  ∧ registered (state (run boot (self_kick ++ [Disconnect 1])).1) "r1"
    = Some (mkRoom [("B", 2)] "A" (JStr "") false)
  ∧ registered (state (run boot host_lost_in_broadcast).1) "r1"
    = Some (mkRoom [("B", 2)] "A" (JStr "") false)
  ∧ ¬ host_is_member (mkRoom [("B", 2)] "A" (JStr "") false).
Proof.
  split; [vm_compute; reflexivity|].
  split; [vm_compute; reflexivity|].
  split; [vm_compute; reflexivity|].
  unfold host_is_member; simpl. intros Hin.
  specialize (Hin ltac:(done)).
  apply list_elem_of_singleton in Hin. discriminate Hin.
Qed.

(** C3 on the code: a host alone in its room kicks itself, and the room
    stays registered with no member, also after the hangup that follows;
    the same happens when the last member to leave is not the host, the host
    having been dropped by a broadcast before. *)
Theorem empty_room_stays_registered :
  registered (state (run boot [Connect 1 "r2" "A"; Receive 1 (kick "A")]).1)
    "r2"
  = Some (mkRoom [] "A" (JStr "") false)
  ∧ registered
      (state (run boot [Connect 1 "r2" "A"; Receive 1 (kick "A");
                        Disconnect 1]).1) "r2"
    = Some (mkRoom [] "A" (JStr "") false)
  ∧ registered
      (state (run boot (host_lost_in_broadcast ++ [Disconnect 2])).1) "r1"
    = Some (mkRoom [] "A" (JStr "") false)
  ∧ ¬ has_member (mkRoom [] "A" (JStr "") false).
Proof.
  split; [vm_compute; reflexivity|].
  split; [vm_compute; reflexivity|].
  split; [vm_compute; reflexivity|].
  unfold has_member; simpl. intros Hne. by apply Hne.
Qed.

(** C6 on the code: the host A kicks B from a room that C shares.  B gets
    [kicked] and is closed; the [user-left] event then written to A and C
    has the fields [type] and [userId] and no [host], while the room stays
    registered with A as host.  The event that [handle_disconnect] writes
    for the same room carries [host]. *)
Theorem kick_user_left_has_no_host :
  (step lobby (Receive 1 (kick "B"))).2
  = [Sent 2 (frame_of [("type", JStr "kicked")]); Closed 2;
     Sent 1 (frame_of (kick_user_left (JStr "B")));
     Sent 3 (frame_of (kick_user_left (JStr "B")))]
  ∧ assoc "host" (kick_user_left (JStr "B")) = None
  ∧ registered (state (step lobby (Receive 1 (kick "B"))).1) "r1"
    = Some (mkRoom [("A", 1); ("C", 3)] "A" (JStr "") false)
  ∧ (step lobby (Disconnect 2)).2
    = [Sent 1 (json_dumps (user_left "B" "A"));
       Sent 3 (json_dumps (user_left "B" "A"))]
  ∧ assoc "host" [("type", JStr "user-left"); ("userId", JStr "B");
                  ("host", JStr "A")] = Some (JStr "A").
Proof. repeat split; vm_compute; reflexivity. Qed.

(** ** Every reachable store is sound *)

Section Safe.
Context {A B : Type}.

Lemma safe_ret (a : A) : safe (ret a).
Proof. intros w res w' out Hs [= <- <- <-]. done. Qed.

Lemma safe_raise (e : exn) : safe (raise (A := A) e).
Proof. intros w res w' out Hs [= <- <- <-]. done. Qed.

Lemma safe_bind (m : M A) (f : A → M B) :
  safe m → (∀ a, safe (f a)) → safe (bind m f).
Proof.
  intros Hm Hf w res w' out Hs. unfold bind.
  destruct (m w) as [[[e|a] w1] o1] eqn:Em.
  - intros [= <- <- <-]. by apply (Hm _ _ _ _ Hs Em).
  - destruct (Hm _ _ _ _ Hs Em) as [Hs1 Hd1].
    destruct (f a w1) as [[r2 w2] o2] eqn:Ef. intros [= <- <- <-].
    destruct (Hf a _ _ _ _ Hs1 Ef) as [Hs2 Hd2].
    split; [done|]. by etrans.
Qed.

Lemma safe_try (m : M A) (h : exn → M A) :
  safe m → (∀ e, safe (h e)) → safe (try_except m h).
Proof.
  intros Hm Hh w res w' out Hs. unfold try_except.
  destruct (m w) as [[[e|a] w1] o1] eqn:Em.
  - destruct (Hm _ _ _ _ Hs Em) as [Hs1 Hd1].
    destruct (h e w1) as [[r2 w2] o2] eqn:Eh. intros [= <- <- <-].
    destruct (Hh e _ _ _ _ Hs1 Eh) as [Hs2 Hd2].
    split; [done|]. by etrans.
  - intros [= <- <- <-]. by apply (Hm _ _ _ _ Hs Em).
Qed.

End Safe.

(** A computation that reads the store and goes on. *)
Lemma safe_read {A} (f : world → M A) :
  (∀ w, safe (f w)) → safe (bind get_world f).
Proof.
  intros Hf. apply safe_bind; [|done].
  intros w res w' out Hs [= <- <- <-]. done.
Qed.

Lemma safe_emit e : safe (emit e).
Proof. intros w res w' out Hs [= <- <- <-]. done. Qed.

Lemma safe_deref l : safe (deref l).
Proof.
  apply safe_read. intros w.
  destruct (heap w !! l); [apply safe_ret|apply safe_raise].
Qed.

Lemma safe_rooms_get rid : safe (rooms_get rid).
Proof. apply safe_read. intros w. apply safe_ret. Qed.

Lemma safe_rooms_item rid : safe (rooms_item rid).
Proof.
  apply safe_bind; [apply safe_rooms_get|].
  intros [l|]; [apply safe_ret|apply safe_raise].
Qed.

Lemma safe_send_text s frame : safe (send_text s frame).
Proof.
  apply safe_read. intros w. case_decide; [apply safe_raise|apply safe_emit].
Qed.

Lemma safe_close s : safe (close s).
Proof.
  intros w res w' out Hs. unfold close, bind, get_world; simpl.
  case_decide; intros [= <- <- <-]; done.
Qed.

Lemma safe_py_in key d : safe (py_in key d).
Proof. destruct key; try apply safe_ret; apply safe_raise. Qed.

Lemma safe_py_item key d : safe (py_item key d).
Proof.
  destruct key; try apply safe_raise.
  simpl. destruct (Dict.get s d); [apply safe_ret|apply safe_raise].
Qed.

Lemma safe_py_get data key fallback : safe (py_get data key fallback).
Proof. destruct data; try apply safe_raise. apply safe_ret. Qed.

Lemma safe_json_loads frame : safe (json_loads frame).
Proof. destruct frame; [apply safe_raise|apply safe_ret]. Qed.

Lemma dom_with_room l r w : dom (heap w) ⊆ dom (heap (with_room l r w)).
Proof. simpl. rewrite dom_insert. set_solver. Qed.

(** An update is safe when it gives the members no key twice. *)
Lemma safe_update l f :
  (∀ r, NoDup (Dict.keys (users r)) → NoDup (Dict.keys (users (f r)))) →
  safe (update l f).
Proof.
  intros Hf w res w' out Hs. destruct (heap w !! l) as [r|] eqn:Hl.
  - rewrite (update_run l r) by done. intros [= <- <- <-].
    split; [|apply dom_with_room].
    apply sound_with_room; [done|]. apply Hf.
    destruct Hs as [_ Hheap]. by apply (Hheap l).
  - unfold update, bind, deref, bind, get_world. simpl. rewrite Hl. simpl.
    intros [= <- <- <-]. done.
Qed.

Lemma safe_del_user l key : safe (del_user l key).
Proof.
  apply safe_bind; [apply safe_deref|]. intros r.
  destruct key; try apply safe_raise.
  destruct (Dict.get s (users r)); [|apply safe_raise].
  apply safe_update. intros r'. apply keys_remove_NoDup.
Qed.

Lemma safe_rooms_del rid : safe (rooms_del rid).
Proof.
  intros w res w' out [Hreg Hheap]. unfold rooms_del, bind, get_world; simpl.
  destruct (rooms w !! rid); simpl; intros [= <- <- <-]; [|done].
  split; [|done]. split; [|done]. simpl. by apply map_Forall_delete.
Qed.

(** A new room enters the store and the registry at once. *)
Lemma safe_register rid r :
  NoDup (Dict.keys (users r)) →
  safe (l <- alloc r ;; rooms_set rid l).
Proof.
  intros Hnd w res w' out [Hreg Hheap].
  unfold alloc, rooms_set, bind, get_world, put_world, ret; simpl.
  intros [= <- <- <-]. split; [|simpl; rewrite dom_insert; set_solver].
  split; simpl.
  - apply map_Forall_insert_2; [by rewrite lookup_insert_eq|].
    intros rid' l' Hl'. apply lookup_insert_is_Some'. right.
    by apply (Hreg rid').
  - by apply map_Forall_insert_2.
Qed.

Lemma safe_broadcast_loop frame exclude items : ∀ acc,
  safe (broadcast_loop frame exclude items acc).
Proof.
  induction items as [|[uid s] items IH]; intros acc; simpl.
  - apply safe_ret.
  - case_decide; [apply IH|].
    apply safe_bind; [|intros acc'; apply IH].
    apply safe_try; [|intros e; apply safe_ret].
    apply safe_bind; [apply safe_send_text|intros []; apply safe_ret].
Qed.

Lemma safe_remove_all l uids : safe (remove_all l uids).
Proof.
  induction uids as [|uid uids IH]; simpl; [apply safe_ret|].
  apply safe_bind; [apply safe_del_user|done].
Qed.

Lemma safe_broadcast rid msg exclude : safe (broadcast rid msg exclude).
Proof.
  apply safe_bind; [apply safe_rooms_get|]. intros [l|]; [|apply safe_ret].
  apply safe_bind; [apply safe_deref|]. intros r.
  apply safe_bind; [apply safe_broadcast_loop|]. intros uids.
  apply safe_remove_all.
Qed.

Lemma safe_send_to_user rid key frame : safe (send_to_user rid key frame).
Proof.
  apply safe_bind; [apply safe_rooms_get|]. intros [l|]; [|apply safe_ret].
  apply safe_bind; [apply safe_deref|]. intros r.
  apply safe_bind; [apply safe_py_in|]. intros [|]; [|apply safe_ret].
  apply safe_try; [|intros e; apply safe_del_user].
  apply safe_bind; [apply safe_py_item|]. intros s. apply safe_send_text.
Qed.

Lemma safe_handle_disconnect rid uid : safe (handle_disconnect rid uid).
Proof.
  apply safe_bind; [apply safe_rooms_get|]. intros [l|]; [|apply safe_ret].
  apply safe_bind; [apply safe_deref|]. intros r.
  apply safe_bind; [apply safe_py_in|]. intros [|]; [|apply safe_ret].
  apply safe_bind; [apply safe_del_user|]. intros _.
  apply safe_bind; [apply safe_deref|]. intros r1.
  apply safe_bind.
  - case_decide; [|apply safe_ret].
    destruct (Dict.first_key (users r1)).
    + apply safe_bind; [by apply safe_update|intros _; apply safe_ret].
    + apply safe_bind; [apply safe_rooms_del|intros _; apply safe_ret].
  - intros [|]; [apply safe_ret|].
    apply safe_bind; [apply safe_deref|]. intros r2. apply safe_broadcast.
Qed.

Lemma safe_dispatch c msg : safe (dispatch c msg).
Proof.
  apply safe_bind; [apply safe_json_loads|]. intros data.
  apply safe_bind; [apply safe_py_get|]. intros msg_type.
  apply safe_bind; [apply safe_py_get|]. intros target.
  destruct (existsb _ _); [apply safe_send_to_user|].
  destruct (is_str msg_type "chat").
  { apply safe_bind; [apply safe_py_get|]. intros m. apply safe_broadcast. }
  destruct (is_str msg_type "raise-hand"); [apply safe_broadcast|].
  destruct (is_str msg_type "set-password").
  { apply safe_bind; [apply safe_deref|]. intros r.
    case_decide; [|apply safe_ret].
    apply safe_bind; [apply safe_py_get|]. intros pw.
    apply safe_bind; [by apply safe_update|]. intros _.
    apply safe_bind; [by apply safe_update|]. intros _.
    apply safe_broadcast. }
  destruct (is_str msg_type "unlock-room").
  { apply safe_bind; [apply safe_deref|]. intros r.
    case_decide; [|apply safe_ret].
    apply safe_bind; [by apply safe_update|]. intros _.
    apply safe_broadcast. }
  destruct (is_str msg_type "kick"); [|apply safe_broadcast].
  apply safe_bind; [apply safe_deref|]. intros r.
  case_decide; [|apply safe_ret].
  apply safe_bind; [apply safe_py_get|]. intros kick_id.
  apply safe_bind; [apply safe_deref|]. intros r1.
  apply safe_bind; [apply safe_py_in|]. intros [|]; [|apply safe_ret].
  apply safe_bind; [apply safe_send_to_user|]. intros _.
  apply safe_bind; [apply safe_deref|]. intros r2.
  apply safe_bind; [apply safe_py_item|]. intros s.
  apply safe_bind; [apply safe_close|]. intros _.
  apply safe_bind; [apply safe_del_user|]. intros _.
  apply safe_broadcast.
Qed.

Lemma safe_endpoint_turn c i : safe (endpoint_turn c i).
Proof.
  apply safe_try.
  - apply safe_bind; [destruct i; [apply safe_ret|apply safe_raise]|].
    intros msg. apply safe_bind; [apply safe_dispatch|].
    intros _. apply safe_ret.
  - intros e. destruct e; try apply safe_raise.
    apply safe_bind; [apply safe_handle_disconnect|].
    intros _. apply safe_ret.
Qed.

Lemma safe_endpoint_join s rid uid : safe (endpoint_join s rid uid).
Proof.
  apply safe_bind; [apply safe_rooms_get|]. intros known.
  apply safe_bind.
  { destruct known; [apply safe_ret|].
    apply safe_register. apply NoDup_nil_2. }
  intros _. apply safe_bind; [apply safe_rooms_item|]. intros l.
  apply safe_bind; [apply safe_deref|]. intros r.
  destruct (locked r && _).
  - apply safe_bind; [apply safe_send_text|]. intros _.
    apply safe_bind; [apply safe_close|]. intros _. apply safe_ret.
  - apply safe_bind.
    { apply safe_update. intros r'. apply keys_set_NoDup. }
    intros _. apply safe_bind; [apply safe_deref|]. intros r1.
    apply safe_bind; [apply safe_broadcast|]. intros _. apply safe_ret.
Qed.

Lemma bind_inv {A B} (m : M A) (f : A → M B) w b w' out :
  bind m f w = (inr b, w', out) →
  ∃ a w1 o1 o2, m w = (inr a, w1, o1) ∧ f a w1 = (inr b, w', o2).
Proof.
  unfold bind. destruct (m w) as [[[e|a] w1] o1]; [done|].
  destruct (f a w1) as [[r2 w2] o2] eqn:Ef. intros [= -> <- <-].
  by exists a, w1, o1, o2.
Qed.

Lemma deref_inv l w r w' out :
  deref l w = (inr r, w', out) → w' = w ∧ heap w !! l = Some r.
Proof.
  unfold deref, bind, get_world; simpl.
  destruct (heap w !! l); simpl; [|done]. by intros [= <- <- <-].
Qed.

(** A handler enters its loop holding an object of the store. *)
Lemma endpoint_join_attached s rid uid w c w' out :
  sound w →
  endpoint_join s rid uid w = (inr (Some c), w', out) →
  is_Some (heap w' !! room c).
Proof.
  intros Hs Hjoin. unfold endpoint_join in Hjoin.
  apply bind_inv in Hjoin as (known & w1 & ? & ? & H1 & Hjoin).
  apply (safe_rooms_get _ _ _ _ _ Hs) in H1 as [Hs1 _].
  apply bind_inv in Hjoin as ([] & w2 & ? & ? & H2 & Hjoin).
  assert (sound w2) as Hs2.
  { destruct known; [unfold ret in H2; by simplify_eq|].
    by apply (safe_register rid (new_room uid) (NoDup_nil_2) _ _ _ _ Hs1)
      in H2 as [? _]. }
  apply bind_inv in Hjoin as (l & w3 & ? & ? & H3 & Hjoin).
  apply (safe_rooms_item _ _ _ _ _ Hs2) in H3 as [Hs3 _].
  apply bind_inv in Hjoin as (r & w4 & ? & ? & H4 & Hjoin).
  apply deref_inv in H4 as [-> Hl].
  destruct (locked r && _).
  - apply bind_inv in Hjoin as (? & ? & ? & ? & _ & Hjoin).
    apply bind_inv in Hjoin as (? & ? & ? & ? & _ & Hjoin).
    discriminate Hjoin.
  - apply bind_inv in Hjoin as ([] & w5 & ? & ? & H5 & Hjoin).
    rewrite (update_run l r) in H5 by done. injection H5 as <- _.
    assert (sound (with_room l (set_users (Dict.set uid s) r) w3)) as Hs5.
    { apply sound_with_room; [done|]. apply keys_set_NoDup.
      destruct Hs3 as [_ Hheap]. by apply (Hheap l). }
    apply bind_inv in Hjoin as (r1 & w6 & ? & ? & H6 & Hjoin).
    apply deref_inv in H6 as [-> _].
    apply bind_inv in Hjoin as ([] & w7 & ? & ? & H7 & Hjoin).
    apply (safe_broadcast _ _ _ _ _ _ _ Hs5) in H7 as [_ Hdom].
    injection Hjoin as <- <- _. simpl.
    apply elem_of_dom, Hdom, elem_of_dom. simpl.
    rewrite lookup_insert_eq. eauto.
Qed.

Lemma sound_lose s w : sound w → sound (lose s w).
Proof. by intros [? ?]. Qed.

Lemma attached_grows (hs : gmap ws conn) w w' :
  map_Forall (λ _ c, is_Some (heap w !! room c)) hs →
  dom (heap w) ⊆ dom (heap w') →
  map_Forall (λ _ c, is_Some (heap w' !! room c)) hs.
Proof.
  intros Hat Hdom s c Hc. apply elem_of_dom, Hdom, elem_of_dom.
  by apply (Hat s).
Qed.

(** Soundness, and with it the hypotheses of the theorems above on the
    dictionaries of members, holds along every run of the server. *)
Theorem step_sound sv a :
  sound (state sv) → attached sv →
  sound (state (step sv a).1) ∧ attached (step sv a).1.
Proof.
  intros Hs Hat. destruct a as [s rid uid|s msg|s|s]; simpl.
  - destruct (endpoint_join s rid uid (state sv)) as [[res w'] out] eqn:Ej.
    destruct (safe_endpoint_join _ _ _ _ _ _ _ Hs Ej) as [Hs' Hdom].
    destruct res as [e|[c|]]; simpl.
    + split; [by apply sound_lose|]. by apply (attached_grows _ (state sv)).
    + split; [done|]. apply map_Forall_insert_2.
      * by apply (endpoint_join_attached _ _ _ _ _ _ _ Hs Ej).
      * by apply (attached_grows _ (state sv)).
    + split; [by apply sound_lose|]. by apply (attached_grows _ (state sv)).
  - destruct (handlers sv !! s) as [c|] eqn:Hc; [|done].
    destruct (endpoint_turn c (Frame msg) (state sv))
      as [[res w'] out] eqn:Et.
    destruct (safe_endpoint_turn _ _ _ _ _ _ Hs Et) as [Hs' Hdom].
    destruct res as [e|[|]]; simpl.
    + split; [by apply sound_lose|]. apply map_Forall_delete.
      by apply (attached_grows _ (state sv)).
    + split; [done|]. by apply (attached_grows _ (state sv)).
    + split; [by apply sound_lose|]. apply map_Forall_delete.
      by apply (attached_grows _ (state sv)).
  - destruct (handlers sv !! s) as [c|] eqn:Hc.
    + destruct (endpoint_turn c Hangup (lose s (state sv)))
        as [[res w'] out] eqn:Et.
      destruct (safe_endpoint_turn _ _ _ _ _ _ (sound_lose s _ Hs) Et)
        as [Hs' Hdom].
      simpl. split; [done|]. apply map_Forall_delete.
      by apply (attached_grows _ (state sv)).
    + simpl. split; [by apply sound_lose|done].
  - split; [by apply sound_lose|done].
Qed.

Theorem run_sound actions : ∀ sv,
  sound (state sv) → attached sv →
  sound (state (run sv actions).1) ∧ attached (run sv actions).1.
Proof.
  induction actions as [|a actions IH]; intros sv Hs Hat; simpl; [done|].
  destruct (step sv a) as [sv1 out1] eqn:Es.
  destruct (step_sound sv a Hs Hat) as [Hs1 Hat1]. rewrite Es in Hs1, Hat1.
  destruct (run sv1 actions) as [sv2 out2] eqn:Er.
  specialize (IH sv1 Hs1 Hat1). by rewrite Er in IH.
Qed.

Corollary reachable_sound actions :
  sound (state (run boot actions).1) ∧ attached (run boot actions).1.
Proof.
  apply run_sound.
  - split; apply map_Forall_empty.
  - apply map_Forall_empty.
Qed.

(** * The rest of the code *)

(** ** [broadcast] and [send_to_user] *)

(** X1. [broadcast] to a registered room never raises.  It writes the frame,
    in dictionary order, to every member that is not excluded and whose
    socket takes it; it removes the members whose send raised and keeps the
    excluded one whatever its socket; it touches neither the host, the lock,
    the password nor the registry. *)
Theorem broadcast_reaches_and_prunes rid msg exclude r w :
  registered w rid = Some r →
  NoDup (Dict.keys (users r)) →
  ∃ w',
    broadcast rid msg exclude w
    = (inr tt, w',
       (λ p, Sent p.2 (frame_for msg))
         <$> filter (λ p, Some p.1 ≠ exclude ∧ p.2 ∉ down w) (users r))
    ∧ registered w' rid
      = Some (mkRoom
                (filter (λ p, ¬ (Some p.1 ≠ exclude ∧ p.2 ∈ down w)) (users r))
                (host r) (password r) (locked r))
    ∧ rooms w' = rooms w ∧ down w' = down w.
Proof.
  intros (l & Hrid & Hl)%registered_inv Hnd.
  exists (with_room l (set_users (survivors exclude w) r) w).
  split; [by apply broadcast_run|].
  split; [by apply registered_with_room|done].
Qed.

Lemma broadcast_reaches_and_prunes_witness :
  ∃ w',
    broadcast "r1" (Obj (JObj [("type", JStr "ping")])) (Some "A")
      (state stale_member)
    = (inr tt, w',
       (λ p, Sent p.2 (frame_for (Obj (JObj [("type", JStr "ping")]))))
         <$> filter (λ p, Some p.1 ≠ Some "A"
                          ∧ p.2 ∉ down (state stale_member))
               [("A", 1); ("B", 2)])
    ∧ registered w' "r1"
      = Some (mkRoom
                (filter (λ p, ¬ (Some p.1 ≠ Some "A"
                                 ∧ p.2 ∈ down (state stale_member)))
                   [("A", 1); ("B", 2)])
                "A" (JStr "") false)
    ∧ rooms w' = rooms (state stale_member)
    ∧ down w' = down (state stale_member).
Proof.
  apply (broadcast_reaches_and_prunes "r1" _ (Some "A")
           (mkRoom [("A", 1); ("B", 2)] "A" (JStr "") false)).
  - vm_compute; reflexivity.
  - apply (bool_decide_unpack _). vm_compute; reflexivity.
Defined.

Lemma send_to_user_unnamed rid key frame r w :
  registered w rid = Some r →
  hashable key = true →
  named key (users r) = None →
  send_to_user rid key frame w = (inr tt, w, []).
Proof.
  intros (l & Hrid & Hl)%registered_inv Hh Hn. unfold send_to_user.
  rewrite (bind_quiet _ _ _ _ _ (rooms_get_run rid w)), Hrid.
  rewrite (bind_quiet _ _ _ _ _ (deref_run _ _ _ Hl)).
  destruct key; try done; simpl in *; try by rewrite bind_ret.
  rewrite Hn. by rewrite bind_ret.
Qed.

(** X2. [send_to_user] for a target that names no member of the registered
    room (an id that is absent, or a value that is not a string but can be
    hashed, such as [None] or a number), and likewise for a room id that is
    not registered, is a silent no-op: nothing is written, nothing changes,
    nothing is raised. *)
Theorem send_to_user_absent_target_is_dropped rid key frame w :
  (rooms w !! rid = None
   ∨ ∃ r, registered w rid = Some r ∧ hashable key = true
          ∧ named key (users r) = None) →
  send_to_user rid key frame w = (inr tt, w, []).
Proof.
  intros [Hnone|(r & Hr & Hh & Hn)].
  - by apply send_to_user_absent.
  - by apply (send_to_user_unnamed _ _ _ r).
Qed.

Lemma send_to_user_absent_target_witness :
  send_to_user "r1" (JStr "Z") (Garbage "x") (state lobby)
  = (inr tt, state lobby, []).
Proof.
  apply send_to_user_absent_target_is_dropped. right. exists roomABC.
  split; [vm_compute; reflexivity|]. split; reflexivity.
Defined.

(** X3. [send_to_user] for a member whose send raises removes that member
    from the room and does nothing else: no frame is written to anyone (no
    [user-left]), the host field stays as it is even when the member was the
    host, and the room stays registered. *)
Theorem send_to_user_broken_target_is_removed rid b sb frame r w :
  registered w rid = Some r →
  Dict.get b (users r) = Some sb →
  sb ∈ down w →
  ∃ w',
    send_to_user rid (JStr b) frame w = (inr tt, w', [])
    ∧ registered w' rid
      = Some (mkRoom (Dict.remove b (users r)) (host r) (password r)
                (locked r))
    ∧ rooms w' = rooms w ∧ down w' = down w.
Proof.
  intros (l & Hrid & Hl)%registered_inv Hb Hdown.
  exists (with_room l (set_users (Dict.remove b) r) w). split.
  - rewrite (send_to_user_member _ _ _ _ _ _ _ Hrid Hl Hb).
    by rewrite decide_True.
  - split; [by apply registered_with_room|done].
Qed.

Lemma send_to_user_broken_target_witness :
  ∃ w',
    send_to_user "r1" (JStr "B") (Garbage "x") (state stale_member)
    = (inr tt, w', [])
    ∧ registered w' "r1" = Some (mkRoom [("A", 1)] "A" (JStr "") false)
    ∧ rooms w' = rooms (state stale_member)
    ∧ down w' = down (state stale_member).
Proof.
  apply (send_to_user_broken_target_is_removed "r1" "B" 2 _
           (mkRoom [("A", 1); ("B", 2)] "A" (JStr "") false)).
  - vm_compute; reflexivity.
  - reflexivity.
  - vm_compute. set_solver.
Defined.

(** ** The branches of the loop *)




Lemma dispatch_raise_hand c items w :
  assoc "type" items = Some (JStr "raise-hand") →
  dispatch c (frame_of items) w
  = broadcast (room_id c) (Obj (raise_hand_event (user_id c))) None w.
Proof.
  intros Hty. by rewrite dispatch_object, Hty.
Qed.

Lemma broadcast_all_run rid msg l r w :
  rooms w !! rid = Some l →
  heap w !! l = Some r →
  NoDup (Dict.keys (users r)) →
  broadcast rid msg None w
  = (inr tt,
     with_room l (mkRoom (alive w (users r)) (host r) (password r) (locked r))
       w,
     (λ p, Sent p.2 (frame_for msg)) <$> alive w (users r)).
Proof.
  intros Hrid Hl Hnd. rewrite (broadcast_run _ _ _ _ _ _ Hrid Hl Hnd).
  unfold set_users. by rewrite survivors_alive, deliveries_alive.
Qed.

(** X5. A [chat] message is broadcast to every member of the registered
    room, the sender included, with the sender's id attached and the
    [message] field copied ([None] when it is absent); a [raise-hand]
    message likewise, with the sender's id only.  The members whose socket
    does not take the frame are removed, and the loop goes on. *)
Theorem chat_and_raise_hand_reach_the_whole_room c items r w :
  registered w (room_id c) = Some r →
  NoDup (Dict.keys (users r)) →
  (assoc "type" items = Some (JStr "chat") →
   ∃ w',
     endpoint_turn c (Frame (frame_of items)) w
     = (inr Continue, w',
        (λ p, Sent p.2
                (json_dumps
                   (chat_event (user_id c)
                      (default JNull (assoc "message" items)))))
          <$> alive w (users r))
     ∧ registered w' (room_id c)
       = Some (mkRoom (alive w (users r)) (host r) (password r) (locked r)))
  ∧ (assoc "type" items = Some (JStr "raise-hand") →
     ∃ w',
       endpoint_turn c (Frame (frame_of items)) w
       = (inr Continue, w',
          (λ p, Sent p.2 (json_dumps (raise_hand_event (user_id c))))
            <$> alive w (users r))
       ∧ registered w' (room_id c)
         = Some (mkRoom (alive w (users r)) (host r) (password r)
                   (locked r))).
Proof.
  intros (l & Hrid & Hl)%registered_inv Hnd. split; intros Hty.
  - eexists. split; [|by apply registered_with_room].
    apply turn_continue. rewrite dispatch_chat by done.
    by rewrite (broadcast_all_run _ _ l r).
  - eexists. split; [|by apply registered_with_room].
    apply turn_continue. rewrite dispatch_raise_hand by done.
    by rewrite (broadcast_all_run _ _ l r).
Qed.

Lemma chat_reaches_the_whole_room_witness :
  ∃ w',
    endpoint_turn connB
      (Frame (frame_of [("type", JStr "chat"); ("message", JStr "hi")]))
      (state lobby)
    = (inr Continue, w',
       [Sent 1 (json_dumps (chat_event "B" (JStr "hi")));
        Sent 2 (json_dumps (chat_event "B" (JStr "hi")));
        Sent 3 (json_dumps (chat_event "B" (JStr "hi")))])
    ∧ registered w' "r1" = Some roomABC.
Proof.
  apply (proj1 (chat_and_raise_hand_reach_the_whole_room connB
                  [("type", JStr "chat"); ("message", JStr "hi")]
                  roomABC (state lobby)
                  ltac:(vm_compute; reflexivity)
                  ltac:(apply (bool_decide_unpack _); vm_compute;
                        reflexivity))).
  reflexivity.
Defined.

Lemma is_known_false v :
  is_known v = false →
  existsb (is_str v) relayed = false
  ∧ is_str v "chat" = false ∧ is_str v "raise-hand" = false
  ∧ is_str v "set-password" = false ∧ is_str v "unlock-room" = false
  ∧ is_str v "kick" = false.
Proof.
  unfold is_known, known_types. rewrite existsb_app.
  intros [Hrel Hrest]%orb_false_elim. split; [done|].
  cbn [existsb] in Hrest.
  repeat (apply orb_false_elim in Hrest as [? Hrest]). done.
Qed.

Lemma dispatch_fallback c items w :
  is_known (default JNull (assoc "type" items)) = false →
  dispatch c (frame_of items) w
  = broadcast (room_id c) (Obj (JObj items)) (Some (user_id c)) w.
Proof.
  intros (H1 & H2 & H3 & H4 & H5 & H6)%is_known_false.
  rewrite dispatch_object. cbv zeta. by rewrite H1, H2, H3, H4, H5, H6.
Qed.

(** X6. A message whose [type] is none of the types with a branch of their
    own (a missing or non-string [type] included) is broadcast as decoded to
    the members of the registered room other than the sender: the entry
    under the sender's id gets no frame and is never removed, whatever its
    socket, and the loop goes on. *)
Theorem other_types_go_to_everyone_but_the_sender c items r w :
  is_known (default JNull (assoc "type" items)) = false →
  registered w (room_id c) = Some r →
  NoDup (Dict.keys (users r)) →
  ∃ w',
    endpoint_turn c (Frame (frame_of items)) w
    = (inr Continue, w',
       (λ p, Sent p.2 (frame_of items))
         <$> filter (λ p, p.1 ≠ user_id c ∧ p.2 ∉ down w) (users r))
    ∧ registered w' (room_id c)
      = Some (mkRoom
                (filter (λ p, p.1 = user_id c ∨ p.2 ∉ down w) (users r))
                (host r) (password r) (locked r)).
Proof.
  intros Hty (l & Hrid & Hl)%registered_inv Hnd.
  exists (with_room l (set_users (survivors (Some (user_id c)) w) r) w).
  split.
  - apply turn_continue. rewrite dispatch_fallback by done.
    rewrite (broadcast_run _ _ _ _ _ _ Hrid Hl Hnd).
    unfold deliveries. simpl frame_for.
    rewrite (list_filter_iff (reached (Some (user_id c)) w)
               (λ p, p.1 ≠ user_id c ∧ p.2 ∉ down w)); [done|].
    intros p. unfold reached. split; intros [H1 H2]; split; congruence.
  - rewrite (registered_with_room _ _ _ _ Hrid). unfold set_users, survivors.
    rewrite (list_filter_iff (λ p, ¬ lost (Some (user_id c)) w p)
               (λ p, p.1 = user_id c ∨ p.2 ∉ down w)); [done|].
    intros p. unfold lost. split.
    + intros Hn. destruct (decide (p.1 = user_id c)); [by left|right].
      intros Hd. apply Hn. split; congruence.
    + intros [Heq|Hup] [Hne Hd]; [congruence|done].
Qed.

Lemma other_types_witness :
  ∃ w',
    endpoint_turn connB (Frame (frame_of [("type", JStr "mute")]))
      (state lobby)
    = (inr Continue, w',
       (λ p, Sent p.2 (frame_of [("type", JStr "mute")]))
         <$> filter (λ p, p.1 ≠ "B" ∧ p.2 ∉ down (state lobby))
               [("A", 1); ("B", 2); ("C", 3)])
    ∧ registered w' "r1"
      = Some (mkRoom
                (filter (λ p, p.1 = "B" ∨ p.2 ∉ down (state lobby))
                   [("A", 1); ("B", 2); ("C", 3)])
                "A" (JStr "") false).
Proof.
  apply (other_types_go_to_everyone_but_the_sender connB
           [("type", JStr "mute")] roomABC (state lobby)).
  - reflexivity.
  - vm_compute; reflexivity.
  - apply (bool_decide_unpack _). vm_compute; reflexivity.
Defined.

Lemma dispatch_unlock c items w :
  assoc "type" items = Some (JStr "unlock-room") →
  dispatch c (frame_of items) w
  = (r <- deref (room c) ;;
     if decide (user_id c = host r) then
       update (room c) (set_locked false) ;;
       broadcast (room_id c)
         (Obj (JObj [("type", JStr "room-locked"); ("locked", JBool false)]))
         None
     else ret tt) w.
Proof. intros Hty. by rewrite dispatch_object, Hty. Qed.

Lemma set_password_run c items r w :
  assoc "type" items = Some (JStr "set-password") →
  rooms w !! room_id c = Some (room c) →
  heap w !! room c = Some r →
  NoDup (Dict.keys (users r)) →
  user_id c = host r →
  endpoint_turn c (Frame (frame_of items)) w
  = (inr Continue,
     with_room (room c)
       (mkRoom (alive w (users r)) (host r)
          (default (JStr "") (assoc "password" items)) true) w,
     (λ p, Sent p.2 (room_locked true)) <$> alive w (users r)).
Proof.
  intros Hty Hrid Hl Hnd Hhost. apply turn_continue.
  rewrite dispatch_set_password by done.
  rewrite (bind_quiet _ _ _ _ _ (deref_run _ _ _ Hl)).
  rewrite decide_True by done.
  rewrite (bind_quiet _ _ _ _ _ (update_run _ _ _ _ Hl)).
  rewrite (bind_quiet _ _ _ _ _
             (update_run _ _ (set_locked true) _ (heap_with_room _ _ _))).
  rewrite with_room_twice.
  rewrite (broadcast_all_run _ _ (room c) _ (with_room (room c) _ w) Hrid
             (heap_with_room _ _ _)) by done.
  by rewrite with_room_twice.
Qed.



(** X8. An [unlock-room] or a [kick] message from a user who is not the host
    of the room its handler holds is dropped like a [set-password] one: the
    store is unchanged, nobody is closed, no frame is written, and the loop
    goes on. *)
Theorem unlock_and_kick_by_non_host_are_dropped c items t r w :
  heap w !! room c = Some r →
  user_id c ≠ host r →
  assoc "type" items = Some (JStr t) →
  t = "unlock-room" ∨ t = "kick" →
  endpoint_turn c (Frame (frame_of items)) w = (inr Continue, w, []).
Proof.
  intros Hl Hhost Hty [-> | ->]; apply turn_continue.
  - rewrite dispatch_unlock by done.
    rewrite (bind_quiet _ _ _ _ _ (deref_run _ _ _ Hl)).
    by rewrite decide_False.
  - rewrite dispatch_kick by done.
    rewrite (bind_quiet _ _ _ _ _ (deref_run _ _ _ Hl)).
    by rewrite decide_False.
Qed.

Lemma kick_by_non_host_witness :
  endpoint_turn connB (Frame (kick "C")) (state lobby)
  = (inr Continue, state lobby, []).
Proof.
  apply (unlock_and_kick_by_non_host_are_dropped connB _ "kick" roomABC).
  - vm_compute; reflexivity.
  - vm_compute; discriminate.
  - reflexivity.
  - by right.
Defined.

Lemma close_run s w :
  s ∉ down w → close s w = (inr tt, lose s w, [Closed s]).
Proof.
  intros Hs. unfold close, bind, get_world; simpl.
  by rewrite decide_False.
Qed.

Lemma kick_run c items b sb r w :
  assoc "type" items = Some (JStr "kick") →
  assoc "kickId" items = Some (JStr b) →
  rooms w !! room_id c = Some (room c) →
  heap w !! room c = Some r →
  NoDup (Dict.keys (users r)) →
  user_id c = host r →
  Dict.get b (users r) = Some sb →
  sb ∉ down w →
  let rest := alive (lose sb w) (Dict.remove b (users r)) in
  endpoint_turn c (Frame (frame_of items)) w
  = (inr Continue,
     with_room (room c) (mkRoom rest (host r) (password r) (locked r))
       (lose sb w),
     [Sent sb kicked; Closed sb]
     ++ ((λ p, Sent p.2 (frame_of (kick_user_left (JStr b)))) <$> rest)).
Proof.
  intros Hty Hkick Hrid Hl Hnd Hhost Hb Hup rest.
  set (r1 := set_users (Dict.remove b) r).
  apply turn_continue. rewrite dispatch_kick by done.
  rewrite (bind_quiet _ _ _ _ _ (deref_run _ _ _ Hl)).
  rewrite decide_True by done. cbv zeta. rewrite Hkick.
  change (default JNull (Some (JStr b))) with (JStr b).
  rewrite (bind_quiet _ _ _ _ _ (deref_run _ _ _ Hl)).
  rewrite (bind_quiet _ _ _ _ _ (py_in_member _ _ _ _ Hb)).
  assert (send_to_user (room_id c) (JStr b) kicked w
          = (inr tt, w, [Sent sb kicked])) as Hsend.
  { rewrite (send_to_user_member _ _ _ _ _ _ _ Hrid Hl Hb).
    by rewrite decide_False. }
  rewrite (bind_run _ _ _ _ _ _ Hsend).
  rewrite (bind_quiet _ _ _ _ _ (deref_run _ _ _ Hl)).
  unfold py_item. rewrite Hb, bind_ret.
  rewrite (bind_run _ _ _ _ _ _ (close_run _ _ Hup)).
  assert (heap (lose sb w) !! room c = Some r) as Hl' by done.
  rewrite (bind_quiet _ _ _ _ _ (del_user_run _ _ _ _ _ Hl' Hb)).
  fold r1. unfold notify_users.
  rewrite (broadcast_all_run (room_id c) _ (room c) r1
             (with_room (room c) r1 (lose sb w)));
    [|done|apply heap_with_room|by apply keys_remove_NoDup].
  by rewrite with_room_twice.
Qed.

(** X9. A [kick] from the host that names a member whose socket takes
    frames: the member gets [kicked], its socket is closed, it leaves the
    members, and the [user-left] event of the kick branch goes to the
    members that remain and whose socket takes it; host, lock and password
    are as before, and the loop of the host goes on. *)
Theorem kick_removes_a_live_member c items b sb r w :
  assoc "type" items = Some (JStr "kick") →
  assoc "kickId" items = Some (JStr b) →
  rooms w !! room_id c = Some (room c) →
  heap w !! room c = Some r →
  NoDup (Dict.keys (users r)) →
  user_id c = host r →
  Dict.get b (users r) = Some sb →
  sb ∉ down w →
  let rest := alive (lose sb w) (Dict.remove b (users r)) in
  ∃ w',
    endpoint_turn c (Frame (frame_of items)) w
    = (inr Continue, w',
       [Sent sb kicked; Closed sb]
       ++ ((λ p, Sent p.2 (frame_of (kick_user_left (JStr b)))) <$> rest))
    ∧ registered w' (room_id c)
      = Some (mkRoom rest (host r) (password r) (locked r))
    ∧ down w' = {[sb]} ∪ down w.
Proof.
  intros Hty Hkick Hrid Hl Hnd Hhost Hb Hup rest. eexists.
  split; [by apply kick_run|].
  split; [by apply registered_with_room|done].
Qed.

Lemma kick_removes_a_live_member_witness :
  let rest := alive (lose 2 (state lobby))
                (Dict.remove "B" [("A", 1); ("B", 2); ("C", 3)]) in
  ∃ w',
    endpoint_turn connA (Frame (kick "B")) (state lobby)
    = (inr Continue, w',
       [Sent 2 kicked; Closed 2]
       ++ ((λ p, Sent p.2 (frame_of (kick_user_left (JStr "B")))) <$> rest))
    ∧ registered w' "r1" = Some (mkRoom rest "A" (JStr "") false)
    ∧ down w' = {[2]} ∪ down (state lobby).
Proof.
  apply (kick_removes_a_live_member connA
           [("type", JStr "kick"); ("kickId", JStr "B")] "B" 2 roomABC
           (state lobby)).
  - reflexivity.
  - reflexivity.
  - vm_compute; reflexivity.
  - vm_compute; reflexivity.
  - apply (bool_decide_unpack _). vm_compute; reflexivity.
  - reflexivity.
  - reflexivity.
  - vm_compute. set_solver.
Defined.

(** X10. A [kick] from the host that names a member whose send raises:
    [send_to_user] removes the member, the lookup
    [room["users"][kick_id]] that follows raises [KeyError], and nothing
    catches it.  The handler of the host ends there without the disconnect
    cleanup: the host stays in the members and stays host, nobody is closed
    and no [user-left] is written. *)
Theorem kick_of_broken_member_ends_the_host_handler c items b sb r w :
  assoc "type" items = Some (JStr "kick") →
  assoc "kickId" items = Some (JStr b) →
  rooms w !! room_id c = Some (room c) →
  heap w !! room c = Some r →
  NoDup (Dict.keys (users r)) →
  user_id c = host r →
  Dict.get b (users r) = Some sb →
  sb ∈ down w →
  endpoint_turn c (Frame (frame_of items)) w
  = (inl KeyError,
     with_room (room c)
       (mkRoom (Dict.remove b (users r)) (host r) (password r) (locked r)) w,
     []).
Proof.
  intros Hty Hkick Hrid Hl Hnd Hhost Hb Hdown.
  apply turn_escape; [|done]. rewrite dispatch_kick by done.
  rewrite (bind_quiet _ _ _ _ _ (deref_run _ _ _ Hl)).
  rewrite decide_True by done. cbv zeta. rewrite Hkick.
  change (default JNull (Some (JStr b))) with (JStr b).
  rewrite (bind_quiet _ _ _ _ _ (deref_run _ _ _ Hl)).
  rewrite (bind_quiet _ _ _ _ _ (py_in_member _ _ _ _ Hb)).
  assert (send_to_user (room_id c) (JStr b) kicked w
          = (inr tt, with_room (room c) (set_users (Dict.remove b) r) w, []))
    as Hsend.
  { rewrite (send_to_user_member _ _ _ _ _ _ _ Hrid Hl Hb).
    by rewrite decide_True. }
  rewrite (bind_quiet _ _ _ _ _ Hsend).
  rewrite (bind_quiet _ _ _ _ _ (deref_run _ _ _ (heap_with_room _ _ _))).
  unfold py_item, set_users at 1. cbn [users].
  by rewrite get_remove_eq.
Qed.

Lemma kick_of_broken_member_witness :
  endpoint_turn connA (Frame (kick "B")) (state stale_member)
  = (inl KeyError,
     with_room 0 (mkRoom [("A", 1)] "A" (JStr "") false)
       (state stale_member),
     []).
Proof.
  apply (kick_of_broken_member_ends_the_host_handler connA
           [("type", JStr "kick"); ("kickId", JStr "B")] "B" 2
           (mkRoom [("A", 1); ("B", 2)] "A" (JStr "") false)
           (state stale_member)).
  - reflexivity.
  - reflexivity.
  - vm_compute; reflexivity.
  - vm_compute; reflexivity.
  - apply (bool_decide_unpack _). vm_compute; reflexivity.
  - reflexivity.
  - reflexivity.
  - vm_compute. set_solver.
Defined.

(** ** Joining and leaving *)

Lemma join_admitted_run s rid uid l r w :
  rooms w !! rid = Some l →
  heap w !! l = Some r →
  NoDup (Dict.keys (users r)) →
  locked r && bool_decide (uid ≠ host r) = false →
  let d := Dict.set uid s (users r) in
  endpoint_join s rid uid w
  = (inr (Some (mkConn s rid uid l)),
     with_room l (mkRoom (alive w d) (host r) (password r) (locked r)) w,
     (λ p, Sent p.2 (json_dumps (user_joined uid (Dict.keys d) (host r))))
       <$> alive w d).
Proof.
  intros Hrid Hl Hnd Hopen d. unfold endpoint_join.
  rewrite (bind_quiet _ _ _ _ _ (rooms_get_run rid w)), Hrid.
  rewrite bind_ret.
  rewrite (bind_quiet _ _ _ _ _ (rooms_item_run _ _ _ Hrid)).
  rewrite (bind_quiet _ _ _ _ _ (deref_run _ _ _ Hl)).
  rewrite Hopen.
  rewrite (bind_quiet _ _ _ _ _ (update_run _ _ _ _ Hl)).
  rewrite (bind_quiet _ _ _ _ _ (deref_run _ _ _ (heap_with_room _ _ _))).
  unfold notify_users.
  rewrite (bind_run _ _ _ _ _ _
             (broadcast_all_run rid _ l (set_users (Dict.set uid s) r)
                (with_room l _ w) Hrid (heap_with_room _ _ _)
                (keys_set_NoDup _ uid s Hnd))).
  unfold ret. by rewrite with_room_twice, app_nil_r.
Qed.

(** X11. A join is admitted when the room is unlocked, and also when it is
    locked and the id given equals the host's.  The id is appended to the
    members, or keeps its place with the new socket when it is there
    already; [user-joined], with the ids of all members in dictionary order
    and the host, goes to every member whose socket takes it, the joiner
    included; host, lock and password are as before. *)
Theorem join_is_admitted_when_unlocked_or_host s rid uid r w :
  registered w rid = Some r →
  NoDup (Dict.keys (users r)) →
  locked r = false ∨ uid = host r →
  let d := Dict.set uid s (users r) in
  ∃ l w',
    endpoint_join s rid uid w
    = (inr (Some (mkConn s rid uid l)), w',
       (λ p, Sent p.2 (json_dumps (user_joined uid (Dict.keys d) (host r))))
         <$> alive w d)
    ∧ rooms w !! rid = Some l
    ∧ registered w' rid
      = Some (mkRoom (alive w d) (host r) (password r) (locked r)).
Proof.
  intros (l & Hrid & Hl)%registered_inv Hnd Hopen d.
  exists l. eexists. split; [|split; [done|by apply registered_with_room]].
  apply join_admitted_run; try done.
  destruct Hopen as [->| ->]; [done|].
  rewrite bool_decide_eq_false_2 by (by intros ?). by destruct (locked r).
Qed.

Lemma host_id_enters_locked_room_witness :
  let d := Dict.set "A" 9 [("A", 1)] in
  ∃ l w',
    endpoint_join 9 "r1" "A" locked_room
    = (inr (Some (mkConn 9 "r1" "A" l)), w',
       (λ p, Sent p.2 (json_dumps (user_joined "A" (Dict.keys d) "A")))
         <$> alive locked_room d)
    ∧ rooms locked_room !! "r1" = Some l
    ∧ registered w' "r1"
      = Some (mkRoom (alive locked_room d) "A" (JStr "pw") true).
Proof.
  apply (join_is_admitted_when_unlocked_or_host 9 "r1" "A"
           (mkRoom [("A", 1)] "A" (JStr "pw") true) locked_room).
  - vm_compute; reflexivity.
  - apply (bool_decide_unpack _). vm_compute; reflexivity.
  - by right.
Defined.

Lemma first_join_run s rid uid w :
  rooms w !! rid = None →
  ∃ l,
    heap w !! l = None
    ∧ endpoint_join s rid uid w
      = (inr (Some (mkConn s rid uid l)),
         mkWorld
           (<[l := mkRoom (alive w [(uid, s)]) uid (JStr "") false]> (heap w))
           (<[rid := l]> (rooms w)) (down w),
         (λ p, Sent p.2 (json_dumps (user_joined uid [uid] uid)))
           <$> alive w [(uid, s)]).
Proof.
  intros Hnone. exists (fresh (dom (heap w))). split.
  { apply not_elem_of_dom, is_fresh. }
  set (l := fresh (dom (heap w))).
  set (w0 := mkWorld (<[l := new_room uid]> (heap w))
               (<[rid := l]> (rooms w)) (down w)).
  assert (rooms w0 !! rid = Some l) as Hrid by apply lookup_insert_eq.
  assert (heap w0 !! l = Some (new_room uid)) as Hl by apply lookup_insert_eq.
  unfold endpoint_join.
  rewrite (bind_quiet _ _ _ _ _ (rooms_get_run rid w)), Hnone.
  assert ((l' <- alloc (new_room uid) ;; rooms_set rid l') w
          = (inr tt, w0, [])) as Hreg by done.
  rewrite (bind_quiet _ _ _ _ _ Hreg).
  rewrite (bind_quiet _ _ _ _ _ (rooms_item_run _ _ _ Hrid)).
  rewrite (bind_quiet _ _ _ _ _ (deref_run _ _ _ Hl)).
  cbn [new_room locked andb].
  rewrite (bind_quiet _ _ _ _ _ (update_run _ _ _ _ Hl)).
  rewrite (bind_quiet _ _ _ _ _ (deref_run _ _ _ (heap_with_room _ _ _))).
  unfold notify_users.
  rewrite (bind_run _ _ _ _ _ _
             (broadcast_all_run rid _ l
                (set_users (Dict.set uid s) (new_room uid))
                (with_room l _ w0) Hrid (heap_with_room _ _ _)
                (keys_set_NoDup [] uid s (NoDup_nil_2)))).
  unfold ret. rewrite with_room_twice, app_nil_r.
  unfold with_room, w0; simpl. by rewrite insert_insert_eq.
Qed.

(** X12. A join under a room id that the registry does not hold creates the
    room: a new object, registered under that id, with the joiner as host,
    unlocked, with the empty password; the other objects and the other
    entries of the registry stay.  The joiner is its only member and gets
    [user-joined]; when its socket does not take the frame the joiner is
    removed again and the room stays registered without a member. *)
Theorem first_join_creates_the_room s rid uid w :
  rooms w !! rid = None →
  ∃ l,
    heap w !! l = None
    ∧ endpoint_join s rid uid w
      = (inr (Some (mkConn s rid uid l)),
         mkWorld
           (<[l := mkRoom (alive w [(uid, s)]) uid (JStr "") false]> (heap w))
           (<[rid := l]> (rooms w)) (down w),
         (λ p, Sent p.2 (json_dumps (user_joined uid [uid] uid)))
           <$> alive w [(uid, s)]).
Proof. apply first_join_run. Qed.

Lemma first_join_creates_the_room_witness :
  ∃ l,
    heap (state lobby) !! l = None
    ∧ endpoint_join 7 "r2" "Z" (state lobby)
      = (inr (Some (mkConn 7 "r2" "Z" l)),
         mkWorld
           (<[l := mkRoom (alive (state lobby) [("Z", 7)]) "Z" (JStr "") false]>
              (heap (state lobby)))
           (<[ "r2" := l]> (rooms (state lobby))) (down (state lobby)),
         (λ p, Sent p.2 (json_dumps (user_joined "Z" ["Z"] "Z")))
           <$> alive (state lobby) [("Z", 7)]).
Proof.
  apply (first_join_creates_the_room 7 "r2" "Z" (state lobby)).
  vm_compute; reflexivity.
Defined.




Lemma get_set_eq {V} (d : list (string * V)) k v :
  Dict.get k (Dict.set k v d) = Some v.
Proof.
  induction d as [|[k' v'] d IH]; simpl.
  - by rewrite decide_True.
  - destruct (decide (k = k')) as [->|Hne]; simpl.
    + by rewrite decide_True.
    + by rewrite decide_False.
Qed.

Lemma remove_appended {V} (d : list (string * V)) k v :
  Dict.get k d = None → Dict.remove k (d ++ [(k, v)]) = d.
Proof.
  induction d as [|[k' v'] d IH]; simpl.
  - by rewrite decide_True.
  - case_decide; [done|]. intros Hg. by rewrite IH.
Qed.

Lemma room_eta r : mkRoom (users r) (host r) (password r) (locked r) = r.
Proof. by destruct r. Qed.

Lemma handle_disconnect_member_run rid uid s l r w :
  rooms w !! rid = Some l →
  heap w !! l = Some r →
  NoDup (Dict.keys (users r)) →
  Dict.get uid (users r) = Some s →
  uid ≠ host r →
  let rest := alive w (Dict.remove uid (users r)) in
  handle_disconnect rid uid w
  = (inr tt, with_room l (mkRoom rest (host r) (password r) (locked r)) w,
     (λ p, Sent p.2 (json_dumps (user_left uid (host r)))) <$> rest).
Proof.
  intros Hrid Hl Hnd Hget Hne rest.
  set (r1 := set_users (Dict.remove uid) r).
  assert (heap (with_room l r1 w) !! l = Some r1) as Hl1
    by apply heap_with_room.
  unfold handle_disconnect.
  rewrite (bind_quiet _ _ _ _ _ (rooms_get_run rid w)), Hrid.
  rewrite (bind_quiet _ _ _ _ _ (deref_run _ _ _ Hl)).
  rewrite (bind_quiet _ _ _ _ _ (py_in_member _ _ _ _ Hget)).
  rewrite (bind_quiet _ _ _ _ _ (del_user_run _ _ _ _ _ Hl Hget)).
  fold r1.
  rewrite (bind_quiet _ _ _ _ _ (deref_run _ _ _ Hl1)).
  rewrite decide_False by done. rewrite bind_ret.
  rewrite (bind_quiet _ _ _ _ _ (deref_run _ _ _ Hl1)).
  unfold notify_users.
  rewrite (broadcast_all_run rid _ l r1 (with_room l r1 w) Hrid Hl1)
    by (by apply keys_remove_NoDup).
  by rewrite with_room_twice.
Qed.

(** X14. When a member that is not the host disconnects, it leaves the
    members, the host stays host, and [user-left] with the departed id and
    that host goes to the members that remain and whose socket takes it;
    the room stays registered, even when nobody remains. *)
Theorem member_leaves_and_host_stays rid uid s r w :
  registered w rid = Some r →
  NoDup (Dict.keys (users r)) →
  Dict.get uid (users r) = Some s →
  uid ≠ host r →
  let rest := alive w (Dict.remove uid (users r)) in
  ∃ w',
    handle_disconnect rid uid w
    = (inr tt, w',
       (λ p, Sent p.2 (json_dumps (user_left uid (host r)))) <$> rest)
    ∧ registered w' rid
      = Some (mkRoom rest (host r) (password r) (locked r))
    ∧ rooms w' = rooms w.
Proof.
  intros (l & Hrid & Hl)%registered_inv Hnd Hget Hne rest. eexists.
  split; [by apply (handle_disconnect_member_run rid uid s l r)|].
  split; [by apply registered_with_room|done].
Qed.

Lemma member_leaves_witness :
  let rest := alive (state lobby)
                (Dict.remove "C" [("A", 1); ("B", 2); ("C", 3)]) in
  ∃ w',
    handle_disconnect "r1" "C" (state lobby)
    = (inr tt, w',
       (λ p, Sent p.2 (json_dumps (user_left "C" "A"))) <$> rest)
    ∧ registered w' "r1" = Some (mkRoom rest "A" (JStr "") false)
    ∧ rooms w' = rooms (state lobby).
Proof.
  apply (member_leaves_and_host_stays "r1" "C" 3 roomABC (state lobby)).
  - vm_compute; reflexivity.
  - apply (bool_decide_unpack _). vm_compute; reflexivity.
  - reflexivity.
  - vm_compute; discriminate.
Defined.



(** ** What a message never does *)

Lemma shrinks_refl r : shrinks r r.
Proof. by split. Qed.

Lemma settles_refl w : settles w w.
Proof.
  split; [done|]. intros l r Hl. exists r.
  split; [done|apply shrinks_refl].
Qed.

Lemma settles_trans w1 w2 w3 : settles w1 w2 → settles w2 w3 → settles w1 w3.
Proof.
  intros [Hr12 H12] [Hr23 H23]. split; [congruence|].
  intros l r3 Hl3. destruct (H23 l r3 Hl3) as (r2 & Hl2 & Hh23 & Hs23).
  destruct (H12 l r2 Hl2) as (r1 & Hl1 & Hh12 & Hs12).
  exists r1. split; [done|]. split; [congruence|by etrans].
Qed.

#[local] Instance settles_trans_inst : Transitive settles.
Proof. intros ???. apply settles_trans. Qed.

Lemma remove_sublist {V} (d : list (string * V)) k :
  Dict.remove k d `sublist_of` d.
Proof.
  induction d as [|[k' v'] d IH]; simpl; [done|].
  case_decide; [by apply sublist_cons|by apply sublist_skip].
Qed.

Section Tame.
Context {A B : Type}.

Lemma tame_ret (a : A) : tame (ret a).
Proof. intros w. split; [apply settles_refl|done]. Qed.

Lemma tame_raise (e : exn) : e ≠ WebSocketDisconnect → tame (raise (A := A) e).
Proof. intros He w. split; [apply settles_refl|]. simpl. congruence. Qed.

Lemma tame_bind (m : M A) (f : A → M B) :
  tame m → (∀ a, tame (f a)) → tame (bind m f).
Proof.
  intros Hm Hf w. unfold bind. specialize (Hm w).
  destruct (m w) as [[[e|a] w1] o1]; simpl in *.
  - destruct Hm as [Hs He]. split; [done|congruence].
  - specialize (Hf a w1). destruct (f a w1) as [[r2 w2] o2]; simpl in *.
    destruct Hm as [Hs1 _], Hf as [Hs2 He]. split; [by etrans|done].
Qed.

Lemma tame_try (m : M A) (h : exn → M A) :
  tame m → (∀ e, tame (h e)) → tame (try_except m h).
Proof.
  intros Hm Hh w. unfold try_except. specialize (Hm w).
  destruct (m w) as [[[e|a] w1] o1]; simpl in *; [|done].
  specialize (Hh e w1). destruct (h e w1) as [[r2 w2] o2]; simpl in *.
  destruct Hm as [Hs1 _], Hh as [Hs2 He]. split; [by etrans|done].
Qed.

End Tame.

Lemma tame_read {A} (f : world → M A) :
  (∀ w, tame (f w)) → tame (bind get_world f).
Proof.
  intros Hf. apply tame_bind; [|done].
  intros w. split; [apply settles_refl|done].
Qed.

Lemma tame_deref l : tame (deref l).
Proof.
  apply tame_read. intros w.
  destruct (heap w !! l); [apply tame_ret|by apply tame_raise].
Qed.

Lemma tame_rooms_get rid : tame (rooms_get rid).
Proof. apply tame_read. intros w. apply tame_ret. Qed.

Lemma tame_send_text s frame : tame (send_text s frame).
Proof.
  apply tame_read. intros w. case_decide; [by apply tame_raise|].
  intros w'. split; [apply settles_refl|done].
Qed.

Lemma tame_close s : tame (close s).
Proof.
  intros w. unfold close, bind, get_world; simpl.
  case_decide; simpl; (split; [|done]); split; try done;
    intros l r Hl; exists r; (split; [done|apply shrinks_refl]).
Qed.

Lemma tame_py_in key d : tame (py_in key d).
Proof. destruct key; try apply tame_ret; by apply tame_raise. Qed.

Lemma tame_py_item key d : tame (py_item key d).
Proof.
  destruct key; try by apply tame_raise.
  simpl. destruct (Dict.get s d); [apply tame_ret|by apply tame_raise].
Qed.

Lemma tame_py_get data key fallback : tame (py_get data key fallback).
Proof. destruct data; try by apply tame_raise. apply tame_ret. Qed.

Lemma tame_json_loads frame : tame (json_loads frame).
Proof. destruct frame; [by apply tame_raise|apply tame_ret]. Qed.

Lemma tame_update l f : (∀ r, shrinks r (f r)) → tame (update l f).
Proof.
  intros Hf w. destruct (heap w !! l) as [r|] eqn:Hl.
  - rewrite (update_run l r) by done. simpl. split; [|done].
    split; [done|]. intros l' r' Hl'. simpl in Hl'.
    destruct (decide (l' = l)) as [->|Hne].
    + rewrite lookup_insert_eq in Hl'. injection Hl' as <-. eauto.
    + rewrite lookup_insert_ne in Hl' by done.
      exists r'. split; [done|apply shrinks_refl].
  - unfold update, bind, deref, bind, get_world. simpl. rewrite Hl. simpl.
    split; [apply settles_refl|done].
Qed.

Lemma tame_del_user l key : tame (del_user l key).
Proof.
  apply tame_bind; [apply tame_deref|]. intros r.
  destruct key; try by apply tame_raise.
  destruct (Dict.get s (users r)); [|by apply tame_raise].
  apply tame_update. intros r'. split; [done|]. apply remove_sublist.
Qed.

Lemma tame_broadcast_loop frame exclude items : ∀ acc,
  tame (broadcast_loop frame exclude items acc).
Proof.
  induction items as [|[uid s] items IH]; intros acc; simpl.
  - apply tame_ret.
  - case_decide; [apply IH|].
    apply tame_bind; [|intros acc'; apply IH].
    apply tame_try; [|intros e; apply tame_ret].
    apply tame_bind; [apply tame_send_text|intros []; apply tame_ret].
Qed.

Lemma tame_remove_all l uids : tame (remove_all l uids).
Proof.
  induction uids as [|uid uids IH]; simpl; [apply tame_ret|].
  apply tame_bind; [apply tame_del_user|done].
Qed.

Lemma tame_broadcast rid msg exclude : tame (broadcast rid msg exclude).
Proof.
  apply tame_bind; [apply tame_rooms_get|]. intros [l|]; [|apply tame_ret].
  apply tame_bind; [apply tame_deref|]. intros r.
  apply tame_bind; [apply tame_broadcast_loop|]. intros uids.
  apply tame_remove_all.
Qed.

Lemma tame_send_to_user rid key frame : tame (send_to_user rid key frame).
Proof.
  apply tame_bind; [apply tame_rooms_get|]. intros [l|]; [|apply tame_ret].
  apply tame_bind; [apply tame_deref|]. intros r.
  apply tame_bind; [apply tame_py_in|]. intros [|]; [|apply tame_ret].
  apply tame_try; [|intros e; apply tame_del_user].
  apply tame_bind; [apply tame_py_item|]. intros s. apply tame_send_text.
Qed.

Lemma tame_dispatch c msg : tame (dispatch c msg).
Proof.
  apply tame_bind; [apply tame_json_loads|]. intros data.
  apply tame_bind; [apply tame_py_get|]. intros msg_type.
  apply tame_bind; [apply tame_py_get|]. intros target.
  destruct (existsb _ _); [apply tame_send_to_user|].
  destruct (is_str msg_type "chat").
  { apply tame_bind; [apply tame_py_get|]. intros m. apply tame_broadcast. }
  destruct (is_str msg_type "raise-hand"); [apply tame_broadcast|].
  destruct (is_str msg_type "set-password").
  { apply tame_bind; [apply tame_deref|]. intros r.
    case_decide; [|apply tame_ret].
    apply tame_bind; [apply tame_py_get|]. intros pw.
    apply tame_bind; [by apply tame_update|]. intros _.
    apply tame_bind; [by apply tame_update|]. intros _.
    apply tame_broadcast. }
  destruct (is_str msg_type "unlock-room").
  { apply tame_bind; [apply tame_deref|]. intros r.
    case_decide; [|apply tame_ret].
    apply tame_bind; [by apply tame_update|]. intros _.
    apply tame_broadcast. }
  destruct (is_str msg_type "kick"); [|apply tame_broadcast].
  apply tame_bind; [apply tame_deref|]. intros r.
  case_decide; [|apply tame_ret].
  apply tame_bind; [apply tame_py_get|]. intros kick_id.
  apply tame_bind; [apply tame_deref|]. intros r1.
  apply tame_bind; [apply tame_py_in|]. intros [|]; [|apply tame_ret].
  apply tame_bind; [apply tame_send_to_user|]. intros _.
  apply tame_bind; [apply tame_deref|]. intros r2.
  apply tame_bind; [apply tame_py_item|]. intros s.
  apply tame_bind; [apply tame_close|]. intros _.
  apply tame_bind; [apply tame_del_user|]. intros _.
  apply tame_broadcast.
Qed.

(** X16. Whatever text a connection sends, and whatever its handler was
    admitted as, the turn that handles it registers or unregisters no room,
    creates no room object, changes the host of no room and adds no member
    to any room: in every room the members after the turn are, in the same
    order, members from before.  Only a join adds a member, and only the
    disconnect cleanup changes a host or deletes a room. *)
Theorem a_message_only_ever_removes_members c msg w :
  settles w (endpoint_turn c (Frame msg) w).1.2.
Proof.
  destruct (tame_dispatch c msg w) as [Hs He].
  destruct (dispatch c msg w) as [[[e|[]] w1] o1] eqn:Ed; simpl in *.
  - by rewrite (turn_escape _ _ _ _ _ _ Ed) by congruence.
  - by rewrite (turn_continue _ _ _ _ _ Ed).
Qed.

(** ** How the operations compose *)

Lemma get_filter_None {V} (P : string * V → Prop) `{!∀ p, Decision (P p)}
    (d : list (string * V)) k :
  Dict.get k d = None → Dict.get k (filter P d) = None.
Proof.
  rewrite !get_None_keys. unfold Dict.keys. intros Hk Hin. apply Hk.
  apply list_elem_of_fmap in Hin as (p & -> & Hp).
  apply list_elem_of_filter in Hp as [_ Hp]. by apply list_elem_of_fmap_2.
Qed.

Lemma handle_disconnect_absent_run rid uid r w :
  registered w rid = Some r →
  Dict.get uid (users r) = None →
  handle_disconnect rid uid w = (inr tt, w, []).
Proof.
  intros (l & Hrid & Hl)%registered_inv Hget. unfold handle_disconnect.
  rewrite (bind_quiet _ _ _ _ _ (rooms_get_run rid w)), Hrid.
  rewrite (bind_quiet _ _ _ _ _ (deref_run _ _ _ Hl)).
  unfold py_in. rewrite Hget. by rewrite bind_ret.
Qed.

(** X17. Joining and leaving undo each other.  A user whose id is neither
    that of a member nor that of the host joins an unlocked registered room
    and then disconnects, every socket taking frames: the join appends it
    and writes [user-joined], with the ids of the members in order followed
    by the new id, and the host, to every member and to the joiner; the
    disconnect writes [user-left] to every member; and the store is then
    exactly what it was before the join. *)
Theorem join_then_leave_restores_the_store s rid uid r w :
  registered w rid = Some r →
  NoDup (Dict.keys (users r)) →
  locked r = false →
  Dict.get uid (users r) = None →
  uid ≠ host r →
  s ∉ down w →
  (∀ p, p ∈ users r → p.2 ∉ down w) →
  ∃ l w1,
    endpoint_join s rid uid w
    = (inr (Some (mkConn s rid uid l)), w1,
       (λ p, Sent p.2
               (json_dumps
                  (user_joined uid (Dict.keys (users r) ++ [uid]) (host r))))
         <$> (users r ++ [(uid, s)]))
    ∧ registered w1 rid
      = Some (mkRoom (users r ++ [(uid, s)]) (host r) (password r)
                (locked r))
    ∧ handle_disconnect rid uid w1
      = (inr tt, w,
         (λ p, Sent p.2 (json_dumps (user_left uid (host r)))) <$> users r).
Proof.
  intros (l & Hrid & Hl)%registered_inv Hnd Hlock Hnew Hne Hs Hup.
  set (d := users r ++ [(uid, s)]).
  set (r1 := mkRoom d (host r) (password r) (locked r)).
  assert (Dict.set uid s (users r) = d) as Hset
    by (by apply set_new_appends).
  assert (alive w d = d) as Hd.
  { apply alive_all. intros p [Hp|Hp]%elem_of_app; [by apply Hup|].
    by apply list_elem_of_singleton in Hp as ->. }
  exists l, (with_room l r1 w). split; [|split].
  - rewrite (join_admitted_run s rid uid l r w) by
      (done || by rewrite Hlock).
    rewrite Hset, Hd.
    assert (Dict.keys d = Dict.keys (users r) ++ [uid]) as ->
      by (unfold d, Dict.keys; by rewrite fmap_app).
    done.
  - by apply registered_with_room.
  - assert (Dict.get uid d = Some s) as Hget.
    { rewrite <- Hset. apply get_set_eq. }
    rewrite (handle_disconnect_member_run rid uid s l r1 (with_room l r1 w));
      [|done|apply heap_with_room| |done|done].
    + cbn [users host password locked r1]. unfold d.
      rewrite remove_appended by done.
      change (alive (with_room l r1 w)) with (alive w).
      rewrite (alive_all w (users r)) by done.
      by rewrite with_room_twice, room_eta, with_room_same.
    + unfold r1; simpl. rewrite <- Hset. by apply keys_set_NoDup.
Qed.

Lemma join_then_leave_witness :
  ∃ l w1,
    endpoint_join 4 "r1" "D" (state lobby)
    = (inr (Some (mkConn 4 "r1" "D" l)), w1,
       (λ p, Sent p.2
               (json_dumps
                  (user_joined "D" (Dict.keys (users roomABC) ++ ["D"])
                     (host roomABC))))
         <$> (users roomABC ++ [("D", 4)]))
    ∧ registered w1 "r1"
      = Some (mkRoom (users roomABC ++ [("D", 4)]) (host roomABC)
                (password roomABC) (locked roomABC))
    ∧ handle_disconnect "r1" "D" w1
      = (inr tt, state lobby,
         (λ p, Sent p.2 (json_dumps (user_left "D" (host roomABC))))
           <$> users roomABC).
Proof.
  apply (join_then_leave_restores_the_store 4 "r1" "D" roomABC
           (state lobby)).
  - vm_compute; reflexivity.
  - apply (bool_decide_unpack _). vm_compute; reflexivity.
  - reflexivity.
  - reflexivity.
  - vm_compute; discriminate.
  - vm_compute. set_solver.
  - intros p Hp. vm_compute. set_solver.
Defined.

(** X18. After a kick that went through, the hangup of the kicked
    connection runs the disconnect cleanup to no effect: the store is
    unchanged and nothing is written, so that the [user-left] of the kick
    branch is the only one the room sees for that member. *)
Theorem hangup_after_kick_is_silent c items b sb r w cb :
  assoc "type" items = Some (JStr "kick") →
  assoc "kickId" items = Some (JStr b) →
  rooms w !! room_id c = Some (room c) →
  heap w !! room c = Some r →
  NoDup (Dict.keys (users r)) →
  user_id c = host r →
  Dict.get b (users r) = Some sb →
  sb ∉ down w →
  room_id cb = room_id c →
  user_id cb = b →
  let w1 := (endpoint_turn c (Frame (frame_of items)) w).1.2 in
  endpoint_turn cb Hangup w1 = (inr Return, w1, []).
Proof.
  intros Hty Hkick Hrid Hl Hnd Hhost Hb Hup Hsame Hcb w1.
  unfold w1. rewrite (kick_run c items b sb r w) by done. cbn [fst snd].
  rewrite turn_hangup, Hsame, Hcb.
  assert (Dict.get b (alive (lose sb w) (Dict.remove b (users r))) = None)
    as Hgone.
  { apply get_filter_None. by apply get_remove_eq. }
  set (rest := alive (lose sb w) (Dict.remove b (users r))) in *.
  set (r1 := mkRoom rest (host r) (password r) (locked r)).
  assert (handle_disconnect (room_id c) b (with_room (room c) r1 (lose sb w))
          = (inr tt, with_room (room c) r1 (lose sb w), [])) as Hd.
  { apply (handle_disconnect_absent_run _ _ r1); [|done].
    by apply (registered_with_room (lose sb w)). }
  by rewrite (bind_quiet _ _ _ _ _ Hd).
Qed.

Lemma hangup_after_kick_witness :
  let w1 := (endpoint_turn connA (Frame (kick "B")) (state lobby)).1.2 in
  endpoint_turn connB Hangup w1 = (inr Return, w1, []).
Proof.
  apply (hangup_after_kick_is_silent connA
           [("type", JStr "kick"); ("kickId", JStr "B")] "B" 2 roomABC
           (state lobby) connB).
  - reflexivity.
  - reflexivity.
  - vm_compute; reflexivity.
  - vm_compute; reflexivity.
  - apply (bool_decide_unpack _). vm_compute; reflexivity.
  - reflexivity.
  - reflexivity.
  - vm_compute. set_solver.
  - reflexivity.
  - reflexivity.
Defined.




(** ** Whom a message can reach *)

Lemma audience_settles c w w1 s :
  settles w w1 → audience c w1 s → audience c w s.
Proof.
  intros [Hrooms Hheap] [(r1 & Hr1 & uid & Hin)|(r1 & Hl1 & uid & Hin)].
  - apply registered_inv in Hr1 as (l & Hrid & Hl1).
    destruct (Hheap l r1 Hl1) as (r & Hl & _ & Hsub).
    left. exists r. split.
    + unfold registered. rewrite <- Hrooms, Hrid. done.
    + exists uid. by apply (sublist_subseteq _ _ Hsub).
  - destruct (Hheap _ r1 Hl1) as (r & Hl & _ & Hsub).
    right. exists r. split; [done|].
    exists uid. by apply (sublist_subseteq _ _ Hsub).
Qed.

Lemma confined_quiet {A} c (m : M A) w : quiet m → confined_at c m w.
Proof. intros Hq e He. rewrite Hq in He. by apply elem_of_nil in He. Qed.

Lemma confined_bind {A B} c (m : M A) (f : A → M B) w :
  tame m →
  confined_at c m w →
  (∀ a w1 o1, m w = (inr a, w1, o1) → confined_at c (f a) w1) →
  confined_at c (bind m f) w.
Proof.
  intros Ht Hm Hf e. unfold bind. specialize (Ht w). specialize (Hm e).
  destruct (m w) as [[[x|a] w1] o1] eqn:Em; simpl in *; [done|].
  specialize (Hf a w1 o1 eq_refl e).
  destruct (f a w1) as [[r2 w2] o2]; simpl in *.
  intros [He|He]%elem_of_app; [by apply Hm|].
  apply (audience_settles c w w1); [by destruct Ht|by apply Hf].
Qed.

Section Quiet.
Context {A B : Type}.

Lemma quiet_ret (a : A) : quiet (ret a).
Proof. done. Qed.

Lemma quiet_raise (e : exn) : quiet (raise (A := A) e).
Proof. done. Qed.

Lemma quiet_bind (m : M A) (f : A → M B) :
  quiet m → (∀ a, quiet (f a)) → quiet (bind m f).
Proof.
  intros Hm Hf w. unfold bind. specialize (Hm w).
  destruct (m w) as [[[e|a] w1] o1]; simpl in *; [done|].
  specialize (Hf a w1). destruct (f a w1) as [[r2 w2] o2]; simpl in *.
  by subst.
Qed.

End Quiet.

Lemma quiet_deref l : quiet (deref l).
Proof.
  intros w. unfold deref, bind, get_world; simpl. by destruct (heap w !! l).
Qed.

Lemma quiet_update l f : quiet (update l f).
Proof.
  apply quiet_bind; [apply quiet_deref|]. intros r. done.
Qed.

Lemma quiet_del_user l key : quiet (del_user l key).
Proof.
  apply quiet_bind; [apply quiet_deref|]. intros r.
  destruct key; try apply quiet_raise.
  destruct (Dict.get s (users r)); [apply quiet_update|apply quiet_raise].
Qed.

Lemma quiet_remove_all l uids : quiet (remove_all l uids).
Proof.
  induction uids as [|uid uids IH]; simpl; [done|].
  apply quiet_bind; [apply quiet_del_user|done].
Qed.

Lemma quiet_py_get data key fallback : quiet (py_get data key fallback).
Proof. by destruct data. Qed.

Lemma quiet_py_in key d : quiet (py_in key d).
Proof. by destruct key. Qed.

Lemma quiet_py_item key d : quiet (py_item key d).
Proof. destruct key; try done. intros w; simpl. by destruct (Dict.get s d). Qed.

Lemma quiet_json_loads frame : quiet (json_loads frame).
Proof. by destruct frame. Qed.

(** The frames of a broadcast go to members of the registered room. *)
Lemma confined_broadcast c msg exclude w :
  confined_at c (broadcast (room_id c) msg exclude) w.
Proof.
  intros e. unfold broadcast.
  rewrite (bind_quiet _ _ _ _ _ (rooms_get_run (room_id c) w)).
  destruct (rooms w !! room_id c) as [l|] eqn:Hrid;
    [|by intros ?%elem_of_nil].
  destruct (heap w !! l) as [r|] eqn:Hl.
  - rewrite (bind_quiet _ _ _ _ _ (deref_run _ _ _ Hl)).
    rewrite (bind_run _ _ _ _ _ _ (broadcast_loop_run _ _ _ _ _)).
    pose proof (quiet_remove_all l
                  ([] ++ (filter (lost exclude w) (users r)).*1) w) as Hq.
    destruct (remove_all l _ w) as [[r2 w2] o2]; simpl in *. subst o2.
    rewrite app_nil_r. unfold deliveries.
    intros (p & -> & Hp)%list_elem_of_fmap.
    apply list_elem_of_filter in Hp as [_ Hp].
    left. exists r. split; [unfold registered; by rewrite Hrid|].
    exists p.1. by destruct p.
  - unfold bind, deref, bind, get_world; simpl. rewrite Hl; simpl.
    by intros ?%elem_of_nil.
Qed.

(** The frame of a relay goes to the member that the target names. *)
Lemma confined_send_to_user c key frame w :
  confined_at c (send_to_user (room_id c) key frame) w.
Proof.
  intros e. unfold send_to_user.
  rewrite (bind_quiet _ _ _ _ _ (rooms_get_run (room_id c) w)).
  destruct (rooms w !! room_id c) as [l|] eqn:Hrid;
    [|by intros ?%elem_of_nil].
  destruct (heap w !! l) as [r|] eqn:Hl.
  - rewrite (bind_quiet _ _ _ _ _ (deref_run _ _ _ Hl)).
    destruct key; try (by intros ?%elem_of_nil).
    destruct (Dict.get s (users r)) as [sb|] eqn:Hb.
    + rewrite (bind_quiet _ _ _ _ _ (py_in_member _ _ _ _ Hb)).
      unfold try_except, py_item. rewrite Hb, bind_ret, send_text_run.
      destruct (decide (sb ∈ down w)).
      * rewrite (del_user_run l r s sb) by done. by intros ?%elem_of_nil.
      * intros ->%list_elem_of_singleton. left. exists r.
        split; [unfold registered; by rewrite Hrid|].
        exists s. by apply get_Some_elem.
    + unfold py_in. rewrite Hb, bind_ret. by intros ?%elem_of_nil.
  - unfold bind, deref, bind, get_world; simpl. rewrite Hl; simpl.
    by intros ?%elem_of_nil.
Qed.

Lemma py_item_inv key d w s w1 o1 :
  py_item key d w = (inr s, w1, o1) →
  w1 = w ∧ ∃ b, key = JStr b ∧ Dict.get b d = Some s.
Proof.
  destruct key; try done. simpl.
  destruct (Dict.get s0 d) as [v|] eqn:Hg; [|done].
  intros [= <- <- _]. eauto.
Qed.

Lemma confined_close c s r w :
  heap w !! room c = Some r → in_room r s → confined_at c (close s) w.
Proof.
  intros Hl Hin e. unfold close, bind, get_world; simpl.
  case_decide; simpl; [by intros ?%elem_of_nil|].
  intros ->%list_elem_of_singleton. right. by exists r.
Qed.

(** A step of [dispatch] that writes nothing, then the rest. *)
Ltac through tame_step quiet_step :=
  apply confined_bind; [apply tame_step|apply confined_quiet, quiet_step|].

Lemma confined_dispatch c msg w : confined_at c (dispatch c msg) w.
Proof.
  unfold dispatch.
  through tame_json_loads quiet_json_loads. intros data w1 _ _.
  through tame_py_get quiet_py_get. intros msg_type w2 _ _.
  through tame_py_get quiet_py_get. intros target w3 _ _.
  destruct (existsb _ _); [apply confined_send_to_user|].
  destruct (is_str msg_type "chat").
  { through tame_py_get quiet_py_get. intros body w4 _ _.
    apply confined_broadcast. }
  destruct (is_str msg_type "raise-hand"); [apply confined_broadcast|].
  destruct (is_str msg_type "set-password").
  { through tame_deref quiet_deref. intros r w4 _ _.
    case_decide; [|apply confined_quiet, quiet_ret].
    through tame_py_get quiet_py_get. intros pw w5 _ _.
    apply confined_bind;
      [by apply tame_update|apply confined_quiet, quiet_update|].
    intros _ w6 _ _.
    apply confined_bind;
      [by apply tame_update|apply confined_quiet, quiet_update|].
    intros _ w7 _ _. apply confined_broadcast. }
  destruct (is_str msg_type "unlock-room").
  { through tame_deref quiet_deref. intros r w4 _ _.
    case_decide; [|apply confined_quiet, quiet_ret].
    apply confined_bind;
      [by apply tame_update|apply confined_quiet, quiet_update|].
    intros _ w5 _ _. apply confined_broadcast. }
  destruct (is_str msg_type "kick"); [|apply confined_broadcast].
  through tame_deref quiet_deref. intros r w4 _ _.
  case_decide; [|apply confined_quiet, quiet_ret].
  through tame_py_get quiet_py_get. intros kick_id w5 _ _.
  through tame_deref quiet_deref. intros r1 w6 _ _.
  through tame_py_in quiet_py_in. intros [|] w7 _ _;
    [|apply confined_quiet, quiet_ret].
  apply confined_bind; [apply tame_send_to_user|apply confined_send_to_user|].
  intros _ w8 _ _.
  through tame_deref quiet_deref. intros r2 w9 o9 [-> Hl]%deref_inv.
  through tame_py_item quiet_py_item.
  intros s w10 o10 [-> (b & -> & Hb)]%py_item_inv.
  apply confined_bind; [apply tame_close| |].
  { apply (confined_close c s r2); [done|].
    exists b. by apply get_Some_elem. }
  intros _ w11 _ _.
  through tame_del_user quiet_del_user. intros _ w12 _ _.
  apply confined_broadcast.
Qed.

(** X20. Whatever text a connection sends, every frame written and every
    socket closed while it is handled belongs to a member, as of before the
    turn, of the room registered under the handler's room id or of the room
    object the handler holds: a message never reaches a socket outside its
    own room. *)
Theorem a_message_stays_in_its_room c msg w e :
  e ∈ (endpoint_turn c (Frame msg) w).2 → audience c w (sock e).
Proof.
  intros He. apply (confined_dispatch c msg w).
  destruct (tame_dispatch c msg w) as [_ Hx].
  destruct (dispatch c msg w) as [[[x|[]] w1] o1] eqn:Ed; simpl in *.
  - by rewrite (turn_escape _ _ _ _ _ _ Ed) in He by congruence.
  - by rewrite (turn_continue _ _ _ _ _ Ed) in He.
Qed.

Lemma a_message_stays_in_its_room_witness :
  audience connB (state lobby) (sock (Sent 3 (frame_of [("type", JStr "x")]))).
Proof.
  apply (a_message_stays_in_its_room connB (frame_of [("type", JStr "x")])
           (state lobby)).
  vm_compute. set_solver.
Defined.

(** ** Promotion hands over the commands *)




(** ** Messages that lack a field *)

Lemma fallback_run c items l r w :
  is_known (default JNull (assoc "type" items)) = false →
  rooms w !! room_id c = Some l →
  heap w !! l = Some r →
  NoDup (Dict.keys (users r)) →
  endpoint_turn c (Frame (frame_of items)) w
  = (inr Continue,
     with_room l
       (mkRoom (filter (λ p, p.1 = user_id c ∨ p.2 ∉ down w) (users r))
          (host r) (password r) (locked r)) w,
     (λ p, Sent p.2 (frame_of items))
       <$> filter (λ p, p.1 ≠ user_id c ∧ p.2 ∉ down w) (users r)).
Proof.
  intros Hty Hrid Hl Hnd. apply turn_continue.
  rewrite dispatch_fallback by done.
  rewrite (broadcast_run _ _ _ _ _ _ Hrid Hl Hnd).
  unfold deliveries, set_users, survivors. simpl frame_for.
  rewrite (list_filter_iff (reached (Some (user_id c)) w)
             (λ p, p.1 ≠ user_id c ∧ p.2 ∉ down w)).
  2:{ intros p. unfold reached. split; intros [H1 H2]; split; congruence. }
  rewrite (list_filter_iff (λ p, ¬ lost (Some (user_id c)) w p)
             (λ p, p.1 = user_id c ∨ p.2 ∉ down w)); [done|].
  intros p. unfold lost. split.
  - intros Hn. destruct (decide (p.1 = user_id c)); [by left|right].
    intros Hd. apply Hn. split; congruence.
  - intros [Heq|Hup] [Hne Hd]; [congruence|done].
Qed.

Lemma kick_without_id_run c items r w :
  assoc "type" items = Some (JStr "kick") →
  assoc "kickId" items = None →
  heap w !! room c = Some r →
  endpoint_turn c (Frame (frame_of items)) w = (inr Continue, w, []).
Proof.
  intros Hty Hnone Hl. apply turn_continue.
  rewrite dispatch_kick by done. rewrite Hnone.
  rewrite (bind_quiet _ _ _ _ _ (deref_run _ _ _ Hl)).
  case_decide; [|done]. cbv zeta.
  rewrite (bind_quiet _ _ _ _ _ (deref_run _ _ _ Hl)).
  change (default JNull None) with JNull. unfold py_in.
  by rewrite bind_ret.
Qed.

(** C1, amended. A text that [json.loads] rejects, or that decodes to
    anything but an object, raises an error that the handler does not catch:
    the loop of that connection ends there, without the disconnect cleanup,
    and the store is exactly as before, nothing being written.  A message
    that decodes to an object and lacks its type, or the field its type
    calls for, does not fail: the loop goes on and the store stays sound.
    In a handler that holds the room registered under its room id, such a
    message is handled with the field read as [None], the empty string for
    a password: without [type] it is broadcast as it is to the members
    other than the sender; an [offer], [answer] or [ice-candidate] without
    [target] and a [kick] without [kickId] change nothing and write
    nothing; a [chat] without [message] is broadcast with [message] set to
    [None]; a [set-password] without [password] from the host stores the
    empty string, locks the room and broadcasts [room-locked], and from
    anyone else is dropped. *)
Theorem malformed_message c w :
  (∀ raw,
     endpoint_turn c (Frame (Garbage raw)) w = (inl JSONDecodeError, w, []))
  ∧ (∀ v, (∀ items, v ≠ JObj items) →
       endpoint_turn c (Frame (Encoded v)) w = (inl AttributeError, w, []))
  ∧ (∀ items,
       sound w → is_Some (heap w !! room c) → lacks_required items →
       ∃ w' out,
         endpoint_turn c (Frame (frame_of items)) w = (inr Continue, w', out)
         ∧ sound w')
  ∧ (∀ items r,
       rooms w !! room_id c = Some (room c) →
       heap w !! room c = Some r →
       NoDup (Dict.keys (users r)) →
       let turn := endpoint_turn c (Frame (frame_of items)) w in
       let everyone := alive w (users r) in
       (assoc "type" items = None →
        turn
        = (inr Continue,
           with_room (room c)
             (mkRoom
                (filter (λ p, p.1 = user_id c ∨ p.2 ∉ down w) (users r))
                (host r) (password r) (locked r)) w,
           (λ p, Sent p.2 (frame_of items))
             <$> filter (λ p, p.1 ≠ user_id c ∧ p.2 ∉ down w) (users r)))
       ∧ (∀ t, assoc "type" items = Some (JStr t) → t ∈ relayed →
            assoc "target" items = None →
            turn = (inr Continue, w, []))
       ∧ (assoc "type" items = Some (JStr "chat") →
          assoc "message" items = None →
          turn
          = (inr Continue,
             with_room (room c)
               (mkRoom everyone (host r) (password r) (locked r)) w,
             (λ p, Sent p.2 (json_dumps (chat_event (user_id c) JNull)))
               <$> everyone))
       ∧ (assoc "type" items = Some (JStr "set-password") →
          assoc "password" items = None →
          (user_id c = host r →
           turn
           = (inr Continue,
              with_room (room c) (mkRoom everyone (host r) (JStr "") true) w,
              (λ p, Sent p.2 (room_locked true)) <$> everyone))
          ∧ (user_id c ≠ host r → turn = (inr Continue, w, [])))
       ∧ (assoc "type" items = Some (JStr "kick") →
          assoc "kickId" items = None →
          turn = (inr Continue, w, []))).
Proof.
  destruct (malformed_message_loop c w) as (H1 & H2 & H3).
  split; [done|]. split; [done|]. split; [done|].
  intros items r Hrid Hl Hnd turn everyone. unfold turn, everyone.
  split; [|split; [|split; [|split]]].
  - intros Hty. apply fallback_run; try done. by rewrite Hty.
  - intros t Hty Ht Hnone. apply turn_continue.
    rewrite (dispatch_relayed c items t) by done. rewrite Hnone.
    by apply (send_to_user_null _ (room c) r).
  - intros Hty Hnone. apply turn_continue.
    rewrite dispatch_chat by done. rewrite Hnone.
    by rewrite (broadcast_all_run _ _ (room c) r).
  - intros Hty Hnone. split; intros Hhost.
    + rewrite (set_password_run c items r w) by done. by rewrite Hnone.
    + apply turn_continue. rewrite dispatch_set_password by done.
      rewrite (bind_quiet _ _ _ _ _ (deref_run _ _ _ Hl)).
      by rewrite decide_False.
  - intros Hty Hnone. by apply (kick_without_id_run c items r).
Qed.

Lemma malformed_message_witness :
  endpoint_turn connB (Frame (Garbage "{")) (state lobby)
  = (inl JSONDecodeError, state lobby, [])
  ∧ endpoint_turn connB (Frame (Encoded (JArr [JInt 1]))) (state lobby)
    = (inl AttributeError, state lobby, [])
  ∧ (∃ w' out,
       endpoint_turn connB (Frame (frame_of [("type", JStr "chat")]))
         (state lobby)
       = (inr Continue, w', out)
       ∧ sound w')
  ∧ endpoint_turn connB (Frame (frame_of [("type", JStr "chat")]))
      (state lobby)
    = (inr Continue,
       with_room 0
         (mkRoom (alive (state lobby) [("A", 1); ("B", 2); ("C", 3)]) "A"
            (JStr "") false)
         (state lobby),
       (λ p, Sent p.2 (json_dumps (chat_event "B" JNull)))
         <$> alive (state lobby) [("A", 1); ("B", 2); ("C", 3)])
  ∧ endpoint_turn connB (Frame (frame_of [("type", JStr "offer")]))
      (state lobby)
    = (inr Continue, state lobby, []).
Proof.
  destruct (malformed_message connB (state lobby)) as (H1 & H2 & H3 & H4).
  split; [apply H1|]. split; [by apply H2|]. split.
  { apply H3.
    - apply sound_lobby.
    - vm_compute. eauto.
    - reflexivity. }
  assert (rooms (state lobby) !! room_id connB = Some (room connB)) as Hrid
    by (vm_compute; reflexivity).
  assert (heap (state lobby) !! room connB = Some roomABC) as Hl
    by (vm_compute; reflexivity).
  assert (NoDup (Dict.keys (users roomABC))) as Hnd
    by (apply (bool_decide_unpack _); vm_compute; reflexivity).
  split.
  - apply (H4 [("type", JStr "chat")] roomABC Hrid Hl Hnd); reflexivity.
  - apply (H4 [("type", JStr "offer")] roomABC Hrid Hl Hnd) with "offer";
      [reflexivity|unfold relayed; left|reflexivity].
Defined.
